(** * aws-profile: a shallow embedding of [awsprofile/__init__.py]

    The program is a thin wrapper: it parses its arguments, builds a
    botocore session, installs a file cache on the assume-role provider,
    derives a dictionary of AWS environment variables and either prints
    shell [export] statements or runs a command with these variables.

    The Python code is embedded as a state-and-exception monad over a
    store of dictionaries and session objects.  What the libraries and the
    operating system answer (botocore, the child process) is a
    parameter of the model, collected in the record [Host]. *)

From stdpp Require Import gmap strings list fin_maps sorting.
From Stdlib Require Import ZArith Lia Ascii.

Local Open Scope string_scope.

(** ** Python values and exceptions *)

(** The values that reach the derived mapping: [None] or a [str]. *)
Inductive value :=
  | VNone
  | VStr (s : string).

Global Instance value_eq_dec : EqDecision value.
Proof. solve_decision. Defined.

(** [str(v)], as used by [str.format]. *)
Definition str (v : value) : string :=
  match v with
  | VNone => "None"
  | VStr s => s
  end.

Definition is_str (v : value) : bool :=
  match v with
  | VStr _ => true
  | VNone => false
  end.

Inductive exn :=
  | AttributeError
  | TypeError
  | ValueError
  | OSError
  | IndexError
  | UnknownCredentialError
  | ProfileNotFound
  | ReferenceError
  | LibraryError (what : string)
  | SystemExit (code : Z).

Inductive res (A : Type) :=
  | Ret (a : A)
  | Raise (e : exn).
Arguments Ret {A} a.
Arguments Raise {A} e.

(** ** Objects of the botocore session *)

(** The three kinds of cache object an assume-role provider can hold: the
    plain dictionary botocore installs by default, awscli's
    [JSONFileCache] and this repository's subclass. *)
Inductive Cache :=
  | CacheDict
  | CacheJSONFile (working_dir : string)
  | CacheFixedJSONFile (working_dir : string).

Record Provider := mkProvider {
  METHOD : string;
  cache : Cache
}.

(** A registered component: the credential resolver with its chain, some
    other object, or a component the session builds on first use and whose
    construction raises (botocore builds [credential_provider] lazily, and
    doing so reads the configuration of the profile). *)
Inductive Component :=
  | CredentialResolver (providers : list Provider)
  | OtherComponent (tag : string)
  | Deferred (e : exn).

Record Credentials := mkCredentials {
  access_key : string;
  secret_key : string;
  token : option string
}.

(** A session object.  [scoped_config] and [resolve] stand for what
    botocore answers to [get_scoped_config()] and to loading credentials
    through the provider chain in its current state. *)
Record Session := mkSession {
  profile : option string;
  components : gmap string Component;
  scoped_config : res (gmap string string);
  resolve : list Provider -> res (option Credentials)
}.

(** The [argparse] namespace built by [parse_args]. *)
Record Namespace := mkNamespace {
  ns_profile : option string;
  ns_command : list string;
  ns_export : bool
}.

(** ** The store and the monad *)

Inductive event :=
  | EvParseArgs
  | EvSession (p : option string)
  | EvSetCache (c : Cache)
  | EvGetScopedConfig
  | EvGetCredentials (chain : list Provider)
  | EvPrint (line : string)
  | EvCall (cmd : list string) (env : gmap string value).

Record State := mkState {
  environ : gmap string string;
  heap : gmap nat (gmap string value);
  sessions : gmap nat Session;
  log : list event
}.

Definition M (A : Type) : Type := State -> res A * State.

Definition ret {A} (a : A) : M A := fun st => (Ret a, st).

Definition raise {A} (e : exn) : M A := fun st => (Raise e, st).

Definition bind {A B} (m : M A) (k : A -> M B) : M B :=
  fun st =>
    match m st with
    | (Ret a, st') => k a st'
    | (Raise e, st') => (Raise e, st')
    end.

Notation "'do' x <- m ; k" := (bind m (fun x => k))
  (at level 10, x name, m at level 100, k at level 200).
Notation "'run' m ; k" := (bind m (fun _ => k))
  (at level 10, m at level 100, k at level 200).

Definition get_state : M State := fun st => (Ret st, st).

Definition emit (e : event) : M unit :=
  fun st => (Ret tt, mkState (environ st) (heap st) (sessions st) (log st ++ [e])).

Definition set_heap (h : gmap nat (gmap string value)) : M unit :=
  fun st => (Ret tt, mkState (environ st) h (sessions st) (log st)).

Definition set_sessions (ss : gmap nat Session) : M unit :=
  fun st => (Ret tt, mkState (environ st) (heap st) ss (log st)).

Definition lift {A} (r : res A) : M A := fun st => (r, st).

Fixpoint for_each {A} (l : list A) (body : A -> M unit) : M unit :=
  match l with
  | [] => ret tt
  | x :: l' => run body x; for_each l' body
  end.

(** ** Dictionaries *)

(** A dictionary built by a literal and read back with [items()]: an
    association list in insertion order. *)
Definition pydict := list (string * value).

Fixpoint dict_get (d : pydict) (k : string) : option value :=
  match d with
  | [] => None
  | (k', v) :: d' => if decide (k' = k) then Some v else dict_get d' k
  end.

(** [d[k] = v]: an existing key keeps its place, a new key goes last. *)
Fixpoint dict_setitem (d : pydict) (k : string) (v : value) : pydict :=
  match d with
  | [] => [(k, v)]
  | (k', v') :: d' =>
      if decide (k' = k) then (k', v) :: d' else (k', v') :: dict_setitem d' k v
  end.

Definition keys (d : pydict) : list string := d.*1.

(** [config.get(k)] on a dictionary of strings: [None] when [k] is absent. *)
Definition config_get (config : gmap string string) (k : string) : value :=
  match config !! k with
  | Some s => VStr s
  | None => VNone
  end.

(** Dictionaries that are passed around live in the store.
    [os.environ.copy()] allocates a new one. *)
Definition os_environ_copy : M nat :=
  do st <- get_state;
  let l := fresh (dom (heap st)) in
  run set_heap (<[l := VStr <$> environ st]> (heap st));
  ret l.

(** [env.pop(k, None)] *)
Definition dict_pop (env : nat) (k : string) : M unit :=
  do st <- get_state;
  set_heap (alter (delete k) env (heap st)).

Definition update_with (items : pydict) (m : gmap string value) : gmap string value :=
  foldl (fun acc kv => <[kv.1 := kv.2]> acc) m items.

(** [env.update(other)] *)
Definition dict_update (env : nat) (other : pydict) : M unit :=
  do st <- get_state;
  set_heap (alter (update_with other) env (heap st)).

Definition os_getenv (k : string) : M (option string) :=
  do st <- get_state;
  ret (environ st !! k).

(** ** [unset_profile] *)

(** Documented as unsetting the AWS profile variables, so that the command
    does not try to use the profile itself.  The first statement rebinds
    the parameter [env] to a copy of [os.environ]; the two keys are popped
    from that copy. *)
Definition unset_profile (env : nat) : M unit :=
  do env <- os_environ_copy;
  run dict_pop env "AWS_DEFAULT_PROFILE";
  dict_pop env "AWS_PROFILE".

(** ** The argument parser of [parse_args]

    The parser has the positional [profile] ([nargs='?'], default [None]),
    the positional [command] ([nargs=argparse.REMAINDER]), the flag
    [-e]/[--export-mode] ([store_true]) and the [-h]/[--help] flag every
    [ArgumentParser] has.  [argparse] below follows [parse_args] of the
    library (CPython 3.8 to 3.11) for this parser: every string is first
    classified as an option ([O]), the separator [--] or an argument
    ([A]); options are then taken in order until the first string that is
    not one, from which [profile] and [command] take everything.
    [--help] exits with status 0, a usage error with status 2.  The help
    and usage texts the library writes before it exits are not part of the
    model. *)

Inductive action :=
  | ActHelp
  | ActExport.

(** [parser._option_string_actions] *)
Definition option_string_actions : list (string * action) :=
  [("-h", ActHelp); ("--help", ActHelp);
   ("-e", ActExport); ("--export-mode", ActExport)].

Fixpoint lookup_option (opts : list (string * action)) (s : string) : option action :=
  match opts with
  | [] => None
  | (o, a) :: opts' => if decide (o = s) then Some a else lookup_option opts' s
  end.

(** [s.split(c, 1)], when [c] occurs in [s]. *)
Fixpoint split_at (c : ascii) (s : string) : option (string * string) :=
  match s with
  | EmptyString => None
  | String c' s' =>
      if decide (c' = c) then Some (EmptyString, s')
      else match split_at c s' with
           | Some (a, b) => Some (String c' a, b)
           | None => None
           end
  end.

Definition is_digit (c : ascii) : bool :=
  (48 <=? nat_of_ascii c)%nat && (nat_of_ascii c <=? 57)%nat.

Fixpoint all_digits (s : string) : bool :=
  match s with
  | EmptyString => true
  | String c s' => is_digit c && all_digits s'
  end.

Definition digits1 (s : string) : bool :=
  match s with
  | EmptyString => false
  | _ => all_digits s
  end.

(** [s] without a final newline, which [$] of a pattern lets pass. *)
Fixpoint chomp (s : string) : string :=
  match s with
  | EmptyString => EmptyString
  | String c EmptyString => if decide (c = "010"%char) then EmptyString else s
  | String c s' => String c (chomp s')
  end.

(** [parser._negative_number_matcher]: a dash and digits, with at most
    one dot that digits follow. *)
Definition negative_number (s : string) : bool :=
  match chomp s with
  | String "-"%char t =>
      digits1 t ||
      match split_at "."%char t with
      | Some (a, b) => all_digits a && digits1 b
      | None => false
      end
  | _ => false
  end.

Fixpoint contains_space (s : string) : bool :=
  match s with
  | EmptyString => false
  | String c s' => bool_decide (c = " "%char) || contains_space s'
  end.

Definition second_is_dash (s : string) : bool :=
  match s with
  | String _ (String c _) => bool_decide (c = "-"%char)
  | _ => false
  end.

Definition option_tuple : Type := option action * string * option string.

(** [parser._get_option_tuples]: the options [s] abbreviates. *)
Definition get_option_tuples (s : string) : list option_tuple :=
  if second_is_dash s then
    let '(option_prefix, explicit_arg) :=
      match split_at "="%char s with
      | Some (a, b) => (a, Some b)
      | None => (s, None)
      end in
    omap (fun oa : string * action =>
            if String.prefix option_prefix oa.1
            then Some (Some oa.2, oa.1, explicit_arg) else None)
         option_string_actions
  else
    let short_option_prefix := String.substring 0 2 s in
    let short_explicit_arg := String.substring 2 (String.length s - 2) s in
    omap (fun oa : string * action =>
            if decide (oa.1 = short_option_prefix)
            then Some (Some oa.2, oa.1, Some short_explicit_arg)
            else if String.prefix s oa.1
            then Some (Some oa.2, oa.1, None) else None)
         option_string_actions.

Definition usage_error {A} : res A := Raise (SystemExit 2).

(** [parser._parse_optional]: [None] for a positional, otherwise the
    action (if any), the option string and the explicit argument. *)
Definition parse_optional (s : string) : res (option option_tuple) :=
  match s with
  | EmptyString => Ret None
  | String c rest =>
      if negb (bool_decide (c = "-"%char)) then Ret None
      else
        match lookup_option option_string_actions s with
        | Some a => Ret (Some (Some a, s, None))
        | None =>
            if decide (rest = EmptyString) then Ret None
            else
              match
                match split_at "="%char s with
                | Some (o, x) =>
                    match lookup_option option_string_actions o with
                    | Some a => Some (Some a, o, Some x)
                    | None => None
                    end
                | None => None
                end
              with
              | Some t => Ret (Some t)
              | None =>
                  match get_option_tuples s with
                  | [t] => Ret (Some t)
                  | _ :: _ :: _ => usage_error
                  | [] =>
                      if negative_number s then Ret None
                      else if contains_space s then Ret None
                      else Ret (Some (None, s, None))
                  end
              end
        end
  end.

Inductive arg_kind :=
  | KindA
  | KindDashes
  | KindO (t : option_tuple).

(** The pattern of [O], [A] and [-] that [_parse_known_args] builds:
    everything after the first [--] is an argument. *)
Fixpoint classify (arg_strings : list string) : res (list arg_kind) :=
  match arg_strings with
  | [] => Ret []
  | s :: rest =>
      if decide (s = "--") then Ret (KindDashes :: map (fun _ => KindA) rest)
      else
        match parse_optional s with
        | Raise e => Raise e
        | Ret t =>
            match classify rest with
            | Raise e => Raise e
            | Ret ks => Ret (match t with Some t => KindO t | None => KindA end :: ks)
            end
        end
  end.

(** Further single-dash options packed into the explicit argument of a
    single-dash flag, as in [-eh]. *)
Fixpoint cluster (x : string) (actions : list action) : res (list action) :=
  match x with
  | EmptyString => Ret actions
  | String c x' =>
      match lookup_option option_string_actions (String "-"%char (String c EmptyString)) with
      | Some a => cluster x' (actions ++ [a])
      | None => usage_error
      end
  end.

(** [consume_optional]: the actions one option string triggers, [None]
    for an unknown option (it goes to the unrecognized arguments).  An
    explicit argument is refused by a flag, except that after a
    single-dash flag it is read as further flags. *)
Definition consume_optional (t : option_tuple) : res (option (list action)) :=
  let '(a, option_string, explicit_arg) := t in
  match a with
  | None => Ret None
  | Some a =>
      match explicit_arg with
      | None => Ret (Some [a])
      | Some x =>
          if second_is_dash option_string then usage_error
          else
            match x with
            | EmptyString => Raise IndexError
            | _ =>
                match cluster x [a] with
                | Ret acts => Ret (Some acts)
                | Raise e => Raise e
                end
            end
      end
  end.

Fixpoint take_actions (acts : list action) (export : bool) : res bool :=
  match acts with
  | [] => Ret export
  | ActHelp :: _ => Raise (SystemExit 0)
  | ActExport :: acts' => take_actions acts' true
  end.

(** [l.remove(x)], ignoring its [ValueError]. *)
Fixpoint remove_first (x : string) (l : list string) : list string :=
  match l with
  | [] => []
  | y :: l' => if decide (y = x) then l' else y :: remove_first x l'
  end.

(** The split of the strings from the first positional on between
    [profile] (pattern [-*A?-*]) and [command] (the remainder). *)
Definition match_positionals (toks : list (string * arg_kind)) : list string * list string :=
  let n :=
    match toks.*2 with
    | KindA :: KindDashes :: _ => 2
    | KindA :: _ => 1
    | KindDashes :: KindA :: _ => 2
    | KindDashes :: _ => 1
    | _ => 0
    end in
  ((take n toks).*1, (drop n toks).*1).

(** [parser._get_values] for [profile]: the first [--] is dropped, and
    no string left means the default, [None]. *)
Definition get_values_optional (arg_strings : list string) : option string :=
  match remove_first "--" arg_strings with
  | [] => None
  | s :: _ => Some s
  end.

(** [parse_args] refuses unrecognized arguments. *)
Definition finish (profile : option string) (command : list string) (export : bool)
    (extras : list string) : res Namespace :=
  match extras with
  | [] => Ret (mkNamespace profile command export)
  | _ => usage_error
  end.

Fixpoint consume (toks : list (string * arg_kind)) (export : bool)
    (extras : list string) : res Namespace :=
  match toks with
  | [] => finish None [] export extras
  | (s, KindO t) :: rest =>
      match consume_optional t with
      | Raise e => Raise e
      | Ret None => consume rest export (extras ++ [s])
      | Ret (Some acts) =>
          match take_actions acts export with
          | Raise e => Raise e
          | Ret export' => consume rest export' extras
          end
      end
  | _ =>
      let '(profile_args, command_args) := match_positionals toks in
      finish (get_values_optional profile_args) command_args export extras
  end.

Definition argparse (arg_strings : list string) : res Namespace :=
  match classify arg_strings with
  | Raise e => Raise e
  | Ret kinds => consume (zip arg_strings kinds) false []
  end.

(** ** The host: libraries and operating system *)

Record Host := mkHost {
  (** [sys.argv] *)
  sys_argv : list string;
  (** the session [botocore.session.Session(profile=p)] builds *)
  botocore_session : option string -> Session;
  (** the return code [subprocess.call] hands back for a command and an
      environment, or the exception it raises *)
  child : list string -> gmap string value -> res Z
}.

(** [JSONFileCache.CACHE_DIR], the default working directory. *)
Definition CACHE_DIR : string := "~/.aws/cli/cache".

(** [os.WEXITSTATUS] *)
Definition WEXITSTATUS (status : Z) : Z := Z.land (Z.shiftr status 8) 255.

(** Truth value of [creds.token]: [None] and the empty string are false. *)
Definition truthy (t : option string) : bool :=
  match t with
  | Some s => bool_decide (s <> EmptyString)
  | None => false
  end.

Definition format_export (var : string) (v : value) : string :=
  "export " +:+ var +:+ "=" +:+ str v +:+ ";".

(** [ComponentLocator.get_component] *)
Definition get_component (s : Session) (name : string) : res Component :=
  match components s !! name with
  | Some (Deferred e) => Raise e
  | Some c => Ret c
  | None => Raise ValueError
  end.

(** Offset of the first provider whose [METHOD] is [name]. *)
Fixpoint provider_offset (ps : list Provider) (name : string) : option nat :=
  match ps with
  | [] => None
  | p :: ps' =>
      if decide (METHOD p = name) then Some 0
      else S <$> provider_offset ps' name
  end.

(** [CredentialResolver.get_provider] *)
Definition get_provider (ps : list Provider) (name : string) : res Provider :=
  match provider_offset ps name with
  | Some i =>
      match ps !! i with
      | Some p => Ret p
      | None => Raise UnknownCredentialError
      end
  | None => Raise UnknownCredentialError
  end.

Definition set_cache (c : Cache) (p : Provider) : Provider :=
  mkProvider (METHOD p) c.

Definition set_components (cs : gmap string Component) (s : Session) : Session :=
  mkSession (profile s) cs (scoped_config s) (resolve s).

Definition load_session (session : nat) : M Session :=
  do st <- get_state;
  match sessions st !! session with
  | Some s => ret s
  | None => raise ReferenceError
  end.

Section Program.

Variable host : Host.

(** [botocore.session.Session(profile=p)] *)
Definition new_session (p : option string) : M nat :=
  do st <- get_state;
  let l := fresh (dom (sessions st)) in
  let s := botocore_session host p in
  run emit (EvSession p);
  run set_sessions
    (<[l := mkSession p (components s) (scoped_config s) (resolve s)]> (sessions st));
  ret l.

(** Injects caching into the credential provider of the session.  The
    provider is the first element of the chain whose [METHOD] is [assume-role]; the
    assignment to its [cache] attribute changes that element of the chain
    of the stored session. *)
Definition configure_cache (session : nat) : M unit :=
  do s <- load_session session;
  do cred_chain <- lift (get_component s "credential_provider");
  match cred_chain with
  | CredentialResolver ps =>
      match provider_offset ps "assume-role" with
      | Some i =>
          let c := CacheFixedJSONFile CACHE_DIR in
          run emit (EvSetCache c);
          do st <- get_state;
          set_sessions
            (<[session :=
                 set_components
                   (<["credential_provider" :=
                        CredentialResolver (alter (set_cache c) i ps)]>
                      (components s)) s]> (sessions st))
      | None => raise UnknownCredentialError
      end
  | OtherComponent _ => raise AttributeError
  | Deferred e => raise e
  end.

(** [parser.parse_args()] reads [sys.argv[1:]]; the [argv] parameter is not
    used by the body.  Only the outcome of the parser is modelled: what
    [argparse] itself writes on [--help] or on a usage error is not an
    event of the log. *)
Definition parse_args (argv : list string) : M Namespace :=
  run emit EvParseArgs;
  lift (argparse (tail (sys_argv host))).

(** [session.get_scoped_config()] *)
Definition get_scoped_config (session : nat) : M (gmap string string) :=
  do s <- load_session session;
  run emit EvGetScopedConfig;
  lift (scoped_config s).

(** [session.get_credentials()]: the credentials the provider chain
    yields, [None] when no provider has any. *)
Definition get_credentials (session : nat) : M (option Credentials) :=
  do s <- load_session session;
  do chain <- lift (get_component s "credential_provider");
  match chain with
  | CredentialResolver ps =>
      run emit (EvGetCredentials ps);
      lift (resolve s ps)
  | OtherComponent _ => raise AttributeError
  | Deferred e => raise e
  end.

(** The environment variables for region, access and secret keys, and
    optionally security or session token, as determined by the config and
    credentials of the session. *)
Definition session_vars (session : nat) : M pydict :=
  do config <- get_scoped_config session;
  do creds <- get_credentials session;
  match creds with
  | None => raise AttributeError
  | Some creds =>
      let vars_dict :=
        [("AWS_DEFAULT_REGION", config_get config "region");
         ("AWS_REGION", config_get config "region");
         ("AWS_ACCESS_KEY_ID", VStr (access_key creds));
         ("AWS_SECRET_ACCESS_KEY", VStr (secret_key creds))] in
      if truthy (token creds) then
        do token_type <- os_getenv "AWS_TOKEN_TYPE";
        if decide (token_type = Some "security") then
          ret (dict_setitem vars_dict "AWS_SECURITY_TOKEN"
                 (from_option VStr VNone (token creds)))
        else
          ret (dict_setitem vars_dict "AWS_SESSION_TOKEN"
                 (from_option VStr VNone (token creds)))
      else ret vars_dict
  end.

Definition print (line : string) : M unit := emit (EvPrint line).

(** [subprocess.call(cmd, env=env, ...)]: the call is logged with the
    contents of [env] at that moment; its outcome is the host's. *)
Definition subprocess_call (cmd : list string) (env : nat) : M Z :=
  do st <- get_state;
  match heap st !! env with
  | Some d =>
      run emit (EvCall cmd d);
      lift (child host cmd d)
  | None => raise ReferenceError
  end.

Definition sys_exit {A} (code : Z) : M A := raise (SystemExit code).

Definition main : M unit :=
  do args <- parse_args (sys_argv host);
  do session <- new_session (ns_profile args);
  run configure_cache session;
  do aws_vars <- session_vars session;
  if ns_export args then
    run print "unset AWS_DEFAULT_PROFILE;";
    run print "unset AWS_PROFILE;";
    for_each aws_vars (fun kv => print (format_export kv.1 kv.2))
  else
    do env <- os_environ_copy;
    run unset_profile env;
    run dict_update env aws_vars;
    do returncode <- subprocess_call (ns_command args) env;
    sys_exit (WEXITSTATUS returncode).

End Program.

(** The exit status of the interpreter for an outcome of [main]. *)
Definition exit_status (r : res unit) : Z :=
  match r with
  | Ret _ => 0
  | Raise (SystemExit code) => code
  | Raise _ => 1
  end.

(** What a run printed and which commands it started, read off the log. *)
Definition printed (l : list event) : list string :=
  omap (fun e => match e with EvPrint s => Some s | _ => None end) l.

Definition calls (l : list event) : list (list string * gmap string value) :=
  omap (fun e => match e with EvCall c d => Some (c, d) | _ => None end) l.

Definition initial (env : gmap string string) : State :=
  mkState env ∅ ∅ [].

(** ** The first four statements of [main], and the two branches

    [main] is [derive] followed by [output] (lemma [main_unfold]). *)

Definition derive (host : Host) : M (Namespace * pydict) :=
  do args <- parse_args host (sys_argv host);
  do session <- new_session host (ns_profile args);
  run configure_cache session;
  do aws_vars <- session_vars session;
  ret (args, aws_vars).

Definition output (host : Host) (args : Namespace) (aws_vars : pydict) : M unit :=
  if ns_export args then
    run print "unset AWS_DEFAULT_PROFILE;";
    run print "unset AWS_PROFILE;";
    for_each aws_vars (fun kv => print (format_export kv.1 kv.2))
  else
    do env <- os_environ_copy;
    run unset_profile env;
    run dict_update env aws_vars;
    do returncode <- subprocess_call host (ns_command args) env;
    sys_exit (WEXITSTATUS returncode).

(** The dictionary [session_vars] builds from a configuration, credentials
    and the value of [AWS_TOKEN_TYPE]. *)
Definition base_vars (config : gmap string string) (creds : Credentials) : pydict :=
  [("AWS_DEFAULT_REGION", config_get config "region");
   ("AWS_REGION", config_get config "region");
   ("AWS_ACCESS_KEY_ID", VStr (access_key creds));
   ("AWS_SECRET_ACCESS_KEY", VStr (secret_key creds))].

Definition token_var (token_type : option string) : string :=
  if decide (token_type = Some "security") then "AWS_SECURITY_TOKEN"
  else "AWS_SESSION_TOKEN".

Definition derived_vars (config : gmap string string) (creds : Credentials)
    (token_type : option string) : pydict :=
  if truthy (token creds) then
    (base_vars config creds ++
       [(token_var token_type, from_option VStr VNone (token creds))])%list
  else base_vars config creds.

(** ** Definitions used in the statements *)

Definition patched (ps : list Provider) (i : nat) : list Provider :=
  alter (set_cache (CacheFixedJSONFile CACHE_DIR)) i ps.

Definition derive_log (p : option string) (ps : list Provider) : list event :=
  [EvParseArgs; EvSession p;
   EvSetCache (CacheFixedJSONFile CACHE_DIR);
   EvGetScopedConfig; EvGetCredentials ps].

Definition patch_session (s : Session) (ps : list Provider) (i : nat) : Session :=
  set_components
    (<["credential_provider" := CredentialResolver (patched ps i)]> (components s)) s.

Definition export_lines (vars : pydict) : list string :=
  "unset AWS_DEFAULT_PROFILE;" :: "unset AWS_PROFILE;" ::
  map (fun kv => format_export kv.1 kv.2) vars.

(** The environment handed to [subprocess.call]. *)
Definition child_env (environ : gmap string string) (vars : pydict) :
    gmap string value :=
  update_with vars (VStr <$> environ).

Definition exit_with (r : res Z) : res unit :=
  match r with
  | Ret returncode => Raise (SystemExit (WEXITSTATUS returncode))
  | Raise e => Raise e
  end.

Definition base_keys : list string :=
  ["AWS_DEFAULT_REGION"; "AWS_REGION"; "AWS_ACCESS_KEY_ID"; "AWS_SECRET_ACCESS_KEY"].

Definition has_fixed_cache (ps : list Provider) : Prop :=
  get_provider ps "assume-role" =
    Ret (mkProvider "assume-role" (CacheFixedJSONFile CACHE_DIR)).

Definition outputs (args : Namespace) (environ : gmap string string)
    (vars : pydict) : list event :=
  if ns_export args then map EvPrint (export_lines vars)
  else [EvCall (ns_command args) (child_env environ vars)].

(** The stage of [main] an event belongs to: parsing, session
    construction, cache injection, derivation of the variables, output. *)
Definition stage (e : event) : nat :=
  match e with
  | EvParseArgs => 0
  | EvSession _ => 1
  | EvSetCache _ => 2
  | EvGetScopedConfig => 3
  | EvGetCredentials _ => 3
  | EvPrint _ => 4
  | EvCall _ _ => 4
  end.

Definition all_values_strings (vars : pydict) : Prop :=
  Forall (fun kv => is_str kv.2 = true) vars.

(** ** A concrete host *)

Definition example_chain : list Provider :=
  [mkProvider "env" CacheDict; mkProvider "assume-role" CacheDict;
   mkProvider "shared-credentials-file" CacheDict].

Definition example_components : gmap string Component :=
  <["credential_provider" := CredentialResolver example_chain]>
    (<["event_emitter" := OtherComponent "HierarchicalEmitter"]> ∅).

Definition example_credentials : Credentials :=
  mkCredentials "AKIAEXAMPLE" "secret" (Some "token").

Definition example_session (region : option string) (p : option string) : Session :=
  mkSession p example_components
    (Ret (match region with Some r => <["region" := r]> ∅ | None => ∅ end))
    (fun _ => Ret (Some example_credentials)).

(** [aws-profile -e dev] and [aws-profile dev ls -l] *)
Definition example_argv (export : bool) : list string :=
  if export then ["aws-profile"; "-e"; "dev"]
  else ["aws-profile"; "dev"; "ls"; "-l"].

Definition example_args (export : bool) : Namespace :=
  mkNamespace (Some "dev") (if export then [] else ["ls"; "-l"]) export.

Definition example_host (export : bool) (returncode : Z) : Host :=
  mkHost (example_argv export)
    (example_session (Some "eu-west-1"))
    (fun _ _ => Ret returncode).

(** The same host for a profile that sets no region. *)
Definition no_region_host (export : bool) : Host :=
  mkHost (example_argv export)
    (example_session None)
    (fun _ _ => Ret 0%Z).

Definition example_environ : gmap string string :=
  <["AWS_PROFILE" := "dev"]> (<["HOME" := "/home/dev"]> ∅).

Definition example_vars : pydict :=
  [("AWS_DEFAULT_REGION", VStr "eu-west-1");
   ("AWS_REGION", VStr "eu-west-1");
   ("AWS_ACCESS_KEY_ID", VStr "AKIAEXAMPLE");
   ("AWS_SECRET_ACCESS_KEY", VStr "secret");
   ("AWS_SESSION_TOKEN", VStr "token")].

Definition state_with_session (env : gmap string string) (s : Session) : State :=
  mkState env ∅ (<[0 := s]> ∅) [].

(** * [FixedJSONFileCache] *)

Module FixedJSONFileCache.

(** Python values that can be handed to the cache.  A float is carried as
    the text [float.__repr__] gives and a datetime as the text
    [isoformat()] gives; [PObject] is any other object, such as a set. *)
Inductive pykey :=
  | KStr (s : string)
  | KInt (n : Z)
  | KBool (b : bool)
  | KFloat (repr : string)
  | KNone
  | KOther (repr : string).

Local Unset Elimination Schemes.

Inductive pyval :=
  | PNone
  | PBool (b : bool)
  | PInt (n : Z)
  | PFloat (repr : string)
  | PStr (s : string)
  | PDatetime (isoformat : string)
  | PList (items : list pyval)
  | PTuple (items : list pyval)
  | PDict (items : list (pykey * pyval))
  | PObject (repr : string).

(** The document a JSON text denotes; the key of a member is kept as the
    scalar it was coerced from. *)
Inductive json :=
  | JNull
  | JBool (b : bool)
  | JInt (n : Z)
  | JFloat (repr : string)
  | JStr (s : string)
  | JArray (items : list json)
  | JObject (members : list (pykey * json)).

Local Set Elimination Schemes.

(** Only [str], [int], [float], [bool] and [None] keys are accepted
    ([skipkeys] is off). *)
Definition json_key (k : pykey) : bool :=
  match k with
  | KOther _ => false
  | _ => true
  end.

(** Encoding the items of a sequence in order, stopping at the first
    exception. *)
Definition mapM {A B} (f : A -> res B) : list A -> res (list B) :=
  fix go (l : list A) : res (list B) :=
    match l with
    | [] => Ret []
    | x :: l' =>
        match f x with
        | Ret y =>
            match go l' with
            | Ret ys => Ret (y :: ys)
            | Raise e => Raise e
            end
        | Raise e => Raise e
        end
    end.

(** [json.dumps].  [on_other] is what the encoder does with an object it
    has no encoding for. *)
Fixpoint json_dumps (on_other : pyval -> res json) (v : pyval) : res json :=
  match v with
  | PNone => Ret JNull
  | PBool b => Ret (JBool b)
  | PInt n => Ret (JInt n)
  | PFloat r => Ret (JFloat r)
  | PStr s => Ret (JStr s)
  | PList items | PTuple items =>
      match mapM (json_dumps on_other) items with
      | Ret js => Ret (JArray js)
      | Raise e => Raise e
      end
  | PDict items =>
      match
        mapM (fun kv : pykey * pyval =>
                let '(k, x) := kv in
                if json_key k then
                  match json_dumps on_other x with
                  | Ret j => Ret (k, j)
                  | Raise e => Raise e
                  end
                else Raise TypeError) items
      with
      | Ret js => Ret (JObject js)
      | Raise e => Raise e
      end
  | PDatetime _ | PObject _ => on_other v
  end.

(** Without [default], the encoder raises [TypeError]. *)
Definition no_default (o : pyval) : res json := Raise TypeError.

(** [awscli.utils.json_encoder]: a datetime becomes its ISO 8601 text,
    anything else is returned as it is. *)
Definition json_encoder (obj : pyval) : pyval :=
  match obj with
  | PDatetime isoformat => PStr isoformat
  | _ => obj
  end.

(** With [default=f], the encoder encodes [f o] in place of [o]; when [f]
    hands the object back, the encoder meets it a second time and raises
    [ValueError] (circular reference). *)
Definition with_default (f : pyval -> pyval) (o : pyval) : res json :=
  match f o with
  | PNone => Ret JNull
  | PBool b => Ret (JBool b)
  | PInt n => Ret (JInt n)
  | PFloat r => Ret (JFloat r)
  | PStr s => Ret (JStr s)
  | _ => Raise ValueError
  end.

(** ["... %s" % value]: a tuple on the right of [%] is taken as the list
    of arguments, so only a tuple of length one fits the single [%s]. *)
Definition percent_s (value : pyval) : res unit :=
  match value with
  | PTuple [_] => Ret tt
  | PTuple _ => Raise TypeError
  | _ => Ret tt
  end.

Definition starts_with_slash (s : string) : bool :=
  match s with
  | String c _ => bool_decide (c = "/"%char)
  | EmptyString => false
  end.

Fixpoint ends_with_slash (s : string) : bool :=
  match s with
  | EmptyString => false
  | String c EmptyString => bool_decide (c = "/"%char)
  | String _ s' => ends_with_slash s'
  end.

(** [os.path.join] on two components. *)
Definition os_path_join (a b : string) : string :=
  if starts_with_slash b then b
  else if bool_decide (a = EmptyString) || ends_with_slash a then a +:+ b
  else a +:+ "/" +:+ b.

Definition convert_cache_key (working_dir cache_key : string) : string :=
  os_path_join working_dir (cache_key +:+ ".json").

Section OS.

(** The file system and the three operations [__setitem__] uses:
    [os.path.isdir], [os.makedirs], and opening a file for writing
    ([O_WRONLY | O_CREAT], mode [0o600]), truncating it and writing the
    text. *)
Variable FS : Type.
Variable isdir : string -> FS -> bool.
Variable makedirs : string -> FS -> res unit * FS.
Variable write_file : string -> json -> FS -> res unit * FS.

Definition setitem (working_dir : string) (cache_key : string) (value : pyval)
    (fs : FS) : res unit * FS :=
  let full_key := convert_cache_key working_dir cache_key in
  match json_dumps (with_default json_encoder) value with
  | Raise TypeError | Raise ValueError =>
      match percent_s value with
      | Ret _ => (Raise ValueError, fs)
      | Raise e => (Raise e, fs)
      end
  | Raise e => (Raise e, fs)
  | Ret file_content =>
      if isdir working_dir fs then write_file full_key file_content fs
      else
        match makedirs working_dir fs with
        | (Ret _, fs') => write_file full_key file_content fs'
        | (Raise e, fs') => (Raise e, fs')
        end
  end.

(** [JSONFileCache.__setitem__] of awscli, which calls [json.dumps(value)]. *)
Definition JSONFileCache_setitem (working_dir : string) (cache_key : string)
    (value : pyval) (fs : FS) : res unit * FS :=
  let full_key := convert_cache_key working_dir cache_key in
  match json_dumps no_default value with
  | Raise TypeError | Raise ValueError =>
      match percent_s value with
      | Ret _ => (Raise ValueError, fs)
      | Raise e => (Raise e, fs)
      end
  | Raise e => (Raise e, fs)
  | Ret file_content =>
      if isdir working_dir fs then write_file full_key file_content fs
      else
        match makedirs working_dir fs with
        | (Ret _, fs') => write_file full_key file_content fs'
        | (Raise e, fs') => (Raise e, fs')
        end
  end.

End OS.

(** Structural induction on values, through lists and dictionaries. *)
Section Induction.

Variable P : pyval -> Prop.
Hypothesis HNone : P PNone.
Hypothesis HBool : forall b, P (PBool b).
Hypothesis HInt : forall n, P (PInt n).
Hypothesis HFloat : forall r, P (PFloat r).
Hypothesis HStr : forall s, P (PStr s).
Hypothesis HDatetime : forall s, P (PDatetime s).
Hypothesis HList : forall items, Forall P items -> P (PList items).
Hypothesis HTuple : forall items, Forall P items -> P (PTuple items).
Hypothesis HDict : forall items, Forall (fun kv => P kv.2) items -> P (PDict items).
Hypothesis HObject : forall r, P (PObject r).

Fixpoint pyval_ind (v : pyval) : P v :=
  match v with
  | PNone => HNone
  | PBool b => HBool b
  | PInt n => HInt n
  | PFloat r => HFloat r
  | PStr s => HStr s
  | PDatetime s => HDatetime s
  | PList items =>
      HList items
        ((fix go (l : list pyval) : Forall P l :=
            match l with
            | [] => @List.Forall_nil _ P
            | x :: l' => @List.Forall_cons _ P x l' (pyval_ind x) (go l')
            end) items)
  | PTuple items =>
      HTuple items
        ((fix go (l : list pyval) : Forall P l :=
            match l with
            | [] => @List.Forall_nil _ P
            | x :: l' => @List.Forall_cons _ P x l' (pyval_ind x) (go l')
            end) items)
  | PDict items =>
      HDict items
        ((fix go (l : list (pykey * pyval)) : Forall (fun kv => P kv.2) l :=
            match l with
            | [] => @List.Forall_nil _ _
            | kv :: l' => @List.Forall_cons _ _ kv l' (pyval_ind kv.2) (go l')
            end) items)
  | PObject r => HObject r
  end.

End Induction.

(** A simple file system to run the code on: a directory list and a file
    table. *)
Record MemFS := mkMemFS {
  dirs : list string;
  files : gmap string json
}.

Definition mem_isdir (p : string) (fs : MemFS) : bool :=
  bool_decide (p ∈ dirs fs).

Definition mem_makedirs (p : string) (fs : MemFS) : res unit * MemFS :=
  if bool_decide (is_Some (files fs !! p)) then (Raise OSError, fs)
  else (Ret tt, mkMemFS (p :: dirs fs) (files fs)).

Definition mem_write_file (p : string) (content : json) (fs : MemFS) :
    res unit * MemFS :=
  if mem_isdir p fs then (Raise OSError, fs)
  else (Ret tt, mkMemFS (dirs fs) (<[p := content]> (files fs))).

Definition empty_fs : MemFS := mkMemFS [] ∅.

End FixedJSONFileCache.

Import FixedJSONFileCache.

(** ** Further definitions used in the statements *)

(** A computation that leaves [os.environ] as it found it. *)
Definition keeps_environ {A} (m : M A) : Prop :=
  forall st, environ (m st).2 = environ st.

(** A host on which no provider of the chain has credentials. *)
Definition no_credentials_session (p : option string) : Session :=
  mkSession p example_components (Ret ∅) (fun _ => Ret None).

Definition no_credentials_host (export : bool) : Host :=
  mkHost (example_argv export)
    no_credentials_session
    (fun _ _ => Ret 0%Z).

(** A session for a profile that the configuration does not have: building
    the credential resolver raises [ProfileNotFound], and so does reading
    the scoped configuration. *)
Definition missing_profile_session (p : option string) : Session :=
  mkSession p
    (<["credential_provider" := Deferred ProfileNotFound]>
       (<["event_emitter" := OtherComponent "HierarchicalEmitter"]> ∅))
    (Raise ProfileNotFound) (fun _ => Raise ProfileNotFound).

(** ** [subprocess.call] as Python answers it

    [Popen] takes [args[0]] as the executable and encodes every value of
    [env] before anything is started: an empty argument list raises
    [IndexError] and a value that is not a string raises [TypeError].  Only
    a call that passes both reaches the operating system, whose answer is
    [os_run]. *)
Definition strings_of (d : gmap string value) : option (gmap string string) :=
  if bool_decide (map_Forall (fun _ v => is_str v = true) d)
  then Some (str <$> d) else None.

Definition python_subprocess_call
    (os_run : list string -> gmap string string -> res Z)
    (cmd : list string) (d : gmap string value) : res Z :=
  match cmd with
  | [] => Raise IndexError
  | _ =>
      match strings_of d with
      | Some env => os_run cmd env
      | None => Raise TypeError
      end
  end.

Definition python_host (argv : list string) (session : option string -> Session)
    (os_run : list string -> gmap string string -> res Z) : Host :=
  mkHost argv session (python_subprocess_call os_run).



(** [aws-profile dev ls -l] for a profile that sets no region. *)
Definition no_region_run_host : Host :=
  python_host (example_argv false) (example_session None) (fun _ _ => Ret 0%Z).

(** [aws-profile FLAGS...]: a command line without a profile. *)
Definition flags_only_host (flags : list string) : Host :=
  python_host ("aws-profile" :: flags) (example_session (Some "eu-west-1"))
    (fun _ _ => Ret 0%Z).


(** The calls of a run that start a process. *)
Definition startable (c : list string * gmap string value) : bool :=
  negb (bool_decide (c.1 = [])) &&
  bool_decide (map_Forall (fun _ v => is_str v = true) c.2).

Definition spawned (l : list event) : list (list string * gmap string value) :=
  filter (fun c => startable c = true) (calls l).

(** ** Command lines *)

Definition export_flag (s : string) : Prop :=
  s = "-e" \/ s = "--export-mode".

(** A word that does not begin with a dash. *)
Definition plain (s : string) : bool :=
  match s with
  | String c _ => negb (bool_decide (c = "-"%char))
  | EmptyString => false
  end.

(** The command a command line gives after the profile: a leading [--] is
    dropped. *)
Definition given_command (words : list string) : list string :=
  match words with
  | s :: words' => if decide (s = "--") then words' else words
  | [] => []
  end.

(** The values [json.dumps] can write when [json_encoder] is the default:
    no object other than a datetime, no dictionary key other than a
    scalar. *)
Fixpoint serializable (v : pyval) : bool :=
  match v with
  | PNone | PBool _ | PInt _ | PFloat _ | PStr _ | PDatetime _ => true
  | PList items | PTuple items => forallb serializable items
  | PDict items =>
      forallb (fun kv : pykey * pyval =>
                 let '(k, x) := kv in json_key k && serializable x) items
  | PObject _ => false
  end.

(** * Proofs *)

Ltac step :=
  unfold bind, ret, raise, lift, get_state, set_heap, set_sessions, emit; cbn.

(** ** The argument parser *)

Lemma parse_optional_export (s : string) :
  export_flag s -> parse_optional s = Ret (Some (Some ActExport, s, None)).
Proof. by intros [-> | ->]. Qed.

Lemma parse_optional_plain (p : string) :
  plain p = true -> parse_optional p = Ret None /\ p <> "--".
Proof.
  destruct p as [|c p]; [done|]. cbn. intros Hc.
  apply negb_true_iff in Hc. rewrite Hc. cbn. split; [done|].
  intros [= -> _]. by rewrite bool_decide_eq_true_2 in Hc.
Qed.

Lemma split_at_empty (c : ascii) (s b : string) :
  split_at c s = Some (EmptyString, b) -> s = String c b.
Proof.
  destruct s as [|c' s]; cbn; [discriminate|].
  destruct (decide (c' = c)) as [->|]; [by intros [= ->]|].
  destruct (split_at c s) as [[a b']|]; discriminate.
Qed.

Lemma prefix_both (x : string) :
  String.prefix x "help" = true -> String.prefix x "export-mode" = true ->
  x = EmptyString.
Proof.
  destruct x as [|c x]; [done|]. cbn.
  destruct (Ascii.ascii_dec c "h") as [->|]; [|discriminate].
  intros _. destruct (Ascii.ascii_dec "h" "e"); discriminate.
Qed.

Lemma get_option_tuples_long (r : string) :
  String.prefix "=" r = false -> r <> EmptyString ->
  (length (get_option_tuples (String "-" (String "-" r))) <= 1)%nat.
Proof.
  intros Heq Hne. unfold get_option_tuples. cbn [second_is_dash].
  rewrite bool_decide_eq_true_2 by done.
  cbn [split_at]. rewrite !decide_False by done.
  assert (Hx : forall x (e : option string),
    (x = EmptyString -> False) ->
    (length
       (omap (fun oa : string * action =>
                if String.prefix (String "-" (String "-" x)) oa.1
                then Some (Some oa.2, oa.1, e) else None)
          option_string_actions) <= 1)%nat).
  { intros x e Hx.
    assert (E1 : String.prefix (String "-" (String "-" x)) "-h" = false) by done.
    assert (E2 : String.prefix (String "-" (String "-" x)) "-e" = false) by done.
    assert (E3 : String.prefix (String "-" (String "-" x)) "--help" =
                 String.prefix x "help") by done.
    assert (E4 : String.prefix (String "-" (String "-" x)) "--export-mode" =
                 String.prefix x "export-mode") by done.
    with_strategy opaque [String.prefix] cbn.
    rewrite E1, E2, E3, E4.
    destruct (String.prefix x "help") eqn:H1;
      destruct (String.prefix x "export-mode") eqn:H2; cbn; try lia.
    destruct Hx. by apply prefix_both. }
  destruct (split_at "=" r) as [[a b]|] eqn:Hs.
  - apply Hx. intros ->. apply split_at_empty in Hs. subst r.
    simpl in Heq. by destruct b.
  - by apply Hx.
Qed.

Lemma get_option_tuples_short (c : ascii) (r : string) :
  c <> "-"%char ->
  (length (get_option_tuples (String "-" (String c r))) <= 1)%nat.
Proof.
  intros Hc. unfold get_option_tuples. cbn [second_is_dash].
  rewrite bool_decide_eq_false_2 by done.
  set (s := String "-" (String c r)).
  assert (Hsub : String.substring 0 2 s = String "-" (String c "")).
  { subst s. cbn. by destruct r. }
  assert (F1 : String.prefix s "--help" = false).
  { cbn. by destruct (Ascii.ascii_dec c "-"). }
  assert (F2 : String.prefix s "--export-mode" = false).
  { cbn. by destruct (Ascii.ascii_dec c "-"). }
  assert (F3 : c <> "h"%char -> String.prefix s "-h" = false).
  { intros Hh. cbn. by destruct (Ascii.ascii_dec c "h"). }
  assert (F4 : c <> "e"%char -> String.prefix s "-e" = false).
  { intros He. cbn. by destruct (Ascii.ascii_dec c "e"). }
  rewrite Hsub. clearbody s. clear Hsub.
  with_strategy opaque [String.prefix String.substring String.length] cbn.
  rewrite F1, F2.
  destruct (decide (c = "h"%char)) as [->|Hh];
    [rewrite F4 by done
    |destruct (decide (c = "e"%char)) as [->|He];
     [rewrite F3 by done|rewrite F3, F4 by done]];
    repeat match goal with
           | |- context [decide (?a = ?b)] =>
               let E := fresh "E" in
               destruct (decide (a = b)) as [E|E];
               [try discriminate E; try (injection E as E; congruence)
               |try (by destruct E)]
           end;
    cbn; lia.
Qed.

Lemma parse_optional_returns (s : string) :
  s <> "--" -> String.prefix "--=" s = false ->
  exists t, parse_optional s = Ret t.
Proof.
  intros Hs Hp. unfold parse_optional.
  destruct s as [|c rest]; [by eexists|].
  destruct (bool_decide (c = "-"%char)) eqn:Hc; cbn [negb]; [|by eexists].
  apply bool_decide_eq_true_1 in Hc. subst c.
  destruct (lookup_option _ _); [by eexists|].
  destruct (decide (rest = EmptyString)) as [|Hrest]; [by eexists|].
  destruct (match split_at "=" (String "-" rest) with
            | Some (o, x) => _ | None => _ end); [by eexists|].
  assert (Hlen : (length (get_option_tuples (String "-" rest)) <= 1)%nat).
  { destruct rest as [|c2 r]; [done|].
    destruct (decide (c2 = "-"%char)) as [->|Hc2].
    - apply get_option_tuples_long.
      + cbn in Hp. repeat (destruct (Ascii.ascii_dec _ _); [|done]).
        destruct r as [|c3 r]; [done|]. cbn in *.
        by destruct (Ascii.ascii_dec "=" c3).
      + by intros ->.
    - by apply get_option_tuples_short. }
  destruct (get_option_tuples (String "-" rest)) as [|t [|t' l]].
  - destruct (negative_number _); [by eexists|].
    destruct (contains_space _); by eexists.
  - by eexists.
  - cbn in Hlen. lia.
Qed.

Lemma classify_length (l : list string) (ks : list arg_kind) :
  classify l = Ret ks -> length ks = length l.
Proof.
  revert ks. induction l as [|s l IH]; intros ks; cbn.
  - by intros [= <-].
  - destruct (decide (s = "--")); [intros [= <-]; cbn; by rewrite length_map|].
    destruct (parse_optional s) as [t|]; [|discriminate].
    destruct (classify l) as [ks'|]; [|discriminate].
    intros [= <-]. cbn. by rewrite (IH ks').
Qed.

Lemma classify_returns (l : list string) :
  Forall (fun s => String.prefix "--=" s = false) l ->
  exists ks, classify l = Ret ks.
Proof.
  induction 1 as [|s l Hs _ [ks IH]]; cbn; [by eexists|].
  destruct (decide (s = "--")) as [|Hne]; [by eexists|].
  destruct (parse_optional_returns s Hne Hs) as [t ->].
  rewrite IH. by eexists.
Qed.

Lemma classify_flags (flags rest : list string) (ks : list arg_kind) :
  Forall export_flag flags -> classify rest = Ret ks ->
  classify (flags ++ rest) =
    Ret (map (fun s => KindO (Some ActExport, s, None)) flags ++ ks)%list.
Proof.
  intros Hf Hr. induction Hf as [|s flags Hs _ IH]; [done|]. cbn.
  rewrite decide_False by (destruct Hs as [-> | ->]; done).
  by rewrite (parse_optional_export s Hs), IH.
Qed.

Lemma consume_flags (flags rest : list string) (ks : list arg_kind)
    (export : bool) (extras : list string) :
  consume (zip (flags ++ rest)
             (map (fun s => KindO (Some ActExport, s, None)) flags ++ ks)%list)
    export extras =
  consume (zip rest ks) (export || negb (bool_decide (flags = []))) extras.
Proof.
  revert export. induction flags as [|s flags IH]; intros export; cbn.
  - by rewrite orb_false_r.
  - rewrite IH. by rewrite orb_true_r.
Qed.

(** A command line of [-e] flags only: no profile, no command. *)
Lemma argparse_flags_only (flags : list string) :
  Forall export_flag flags ->
  argparse flags =
    Ret (mkNamespace None [] (negb (bool_decide (flags = [])))).
Proof.
  intros Hf. unfold argparse.
  pose proof (classify_flags flags [] [] Hf eq_refl) as Hc.
  rewrite !app_nil_r in Hc. rewrite Hc. cbv beta iota.
  pose proof (consume_flags flags [] [] false []) as Hk.
  rewrite !app_nil_r in Hk. by rewrite Hk.
Qed.

Lemma get_values_optional_profile (p : string) (l : list string) :
  p <> "--" -> l = [] \/ l = ["--"] ->
  get_values_optional (p :: l) = Some p.
Proof.
  intros Hp Hl. unfold get_values_optional. cbn.
  rewrite decide_False by done. by destruct Hl as [-> | ->].
Qed.

(** [aws-profile [-e ...] PROFILE WORDS...]: the first word that is not a
    flag is the profile, the words after it are the command. *)
Lemma argparse_profile_command (flags : list string) (p : string)
    (words : list string) :
  Forall export_flag flags ->
  plain p = true ->
  Forall (fun s => String.prefix "--=" s = false) words ->
  argparse (flags ++ p :: words) =
    Ret (mkNamespace (Some p) (given_command words)
           (negb (bool_decide (flags = [])))).
Proof.
  intros Hf Hp Hw. unfold argparse.
  destruct (classify_returns words Hw) as [ks Hks].
  destruct (parse_optional_plain p Hp) as [Hpo Hne].
  assert (Hc : classify (p :: words) = Ret (KindA :: ks)).
  { cbn. by rewrite decide_False, Hpo, Hks by done. }
  rewrite (classify_flags flags _ _ Hf Hc). cbv beta iota.
  rewrite consume_flags. cbn [zip zip_with orb].
  pose proof (classify_length _ _ Hks) as Hlen.
  destruct words as [|w words].
  - destruct ks; [|done]. cbn.
    by rewrite get_values_optional_profile by auto.
  - destruct ks as [|k ks]; [done|]. cbn in Hks.
    destruct (decide (w = "--")) as [->|Hw'].
    + injection Hks as <- <-. cbn.
      rewrite get_values_optional_profile by auto.
      rewrite drop_0, decide_True by done.
      by rewrite fst_zip by (rewrite length_map; lia).
    + destruct (parse_optional w) as [t|]; [|discriminate].
      destruct (classify words) as [ks'|] eqn:Hks'; [|discriminate].
      injection Hks as <- <-.
      apply classify_length in Hks'.
      assert (Hcmd : (zip words ks').*1 = words) by (apply fst_zip; lia).
      destruct t as [t|]; cbn; rewrite get_values_optional_profile by auto;
        rewrite decide_False by done; by rewrite Hcmd.
Qed.

(** ** [unset_profile] and the caller's dictionary *)

Lemma unset_profile_run (env : nat) (st : State) :
  let l := fresh (dom (heap st)) in
  unset_profile env st =
    (Ret tt,
     mkState (environ st)
       (alter (delete "AWS_PROFILE") l
          (alter (delete "AWS_DEFAULT_PROFILE") l
             (<[l := VStr <$> environ st]> (heap st))))
       (sessions st) (log st)).
Proof. reflexivity. Qed.

Lemma fresh_lookup_None {A} (h : gmap nat A) : h !! fresh (dom h) = None.
Proof. apply not_elem_of_dom, is_fresh. Qed.

Lemma unset_profile_heap (env l : nat) (st : State) :
  is_Some (heap st !! l) ->
  heap (unset_profile env st).2 !! l = heap st !! l.
Proof.
  intros [d Hd]. rewrite unset_profile_run. cbn.
  assert (Hne : fresh (dom (heap st)) <> l).
  { intros <-. rewrite fresh_lookup_None in Hd. discriminate. }
  rewrite !lookup_alter_ne by exact Hne.
  by rewrite lookup_insert_ne.
Qed.

(** C8. For every dictionary [env] of the store, [unset_profile env]
    returns normally and leaves [env] as it was: the dictionary the caller
    passed keeps the entries it had, in particular [AWS_DEFAULT_PROFILE] and
    [AWS_PROFILE], and [os.environ] is unchanged too.  The keys are popped
    from a copy of [os.environ] that the function allocates. *)
Theorem unset_profile_leaves_env (env : nat) (d : gmap string value) (st : State) :
  heap st !! env = Some d ->
  (unset_profile env st).1 = Ret tt /\
  heap (unset_profile env st).2 !! env = Some d /\
  environ (unset_profile env st).2 = environ st.
Proof.
  intros Hd. repeat split.
  rewrite unset_profile_heap by eauto. exact Hd.
Qed.

(** ** Running [derive] *)

Lemma session_vars_returns (l : nat) (s : Session) (st : State) ps config creds :
  sessions st !! l = Some s ->
  components s !! "credential_provider" = Some (CredentialResolver ps) ->
  scoped_config s = Ret config ->
  resolve s ps = Ret (Some creds) ->
  session_vars l st =
    (Ret (derived_vars config creds (environ st !! "AWS_TOKEN_TYPE")),
     mkState (environ st) (heap st) (sessions st)
       (log st ++ [EvGetScopedConfig; EvGetCredentials ps])).
Proof.
  intros Hl Hc Hcfg Hres.
  unfold session_vars, get_scoped_config, get_credentials, load_session,
    get_component, os_getenv.
  step. rewrite Hl. cbn. rewrite Hcfg. cbn. rewrite Hl. cbn. rewrite Hc. cbn.
  rewrite Hres. cbn. unfold derived_vars, token_var.
  rewrite <- app_assoc. cbn.
  destruct (truthy (token creds)); [|reflexivity]. cbn.
  destruct (decide _); reflexivity.
Qed.

Lemma session_vars_inv (l : nat) (st st' : State) (vars : pydict) :
  session_vars l st = (Ret vars, st') ->
  exists s ps config creds,
    sessions st !! l = Some s /\
    components s !! "credential_provider" = Some (CredentialResolver ps) /\
    scoped_config s = Ret config /\
    resolve s ps = Ret (Some creds).
Proof.
  unfold session_vars, get_scoped_config, get_credentials, load_session,
    get_component.
  step. destruct (sessions st !! l) as [s|] eqn:Hl; [|discriminate]. cbn.
  destruct (scoped_config s) as [config|] eqn:Hcfg; [|discriminate]. cbn.
  rewrite Hl. cbn.
  destruct (components s !! "credential_provider") as [[ps| |]|] eqn:Hc;
    [|discriminate..]. cbn.
  destruct (resolve s ps) as [[creds|]|] eqn:Hres; [|discriminate..].
  intros _. by exists s, ps, config, creds.
Qed.

Lemma configure_cache_returns (l : nat) (s : Session) (st : State) ps i :
  sessions st !! l = Some s ->
  components s !! "credential_provider" = Some (CredentialResolver ps) ->
  provider_offset ps "assume-role" = Some i ->
  configure_cache l st =
    (Ret tt,
     mkState (environ st) (heap st)
       (<[l := patch_session s ps i]> (sessions st))
       (log st ++ [EvSetCache (CacheFixedJSONFile CACHE_DIR)])).
Proof.
  intros Hl Hc Hi. unfold configure_cache, load_session, get_component.
  step. rewrite Hl. cbn. rewrite Hc. cbn. rewrite Hi. reflexivity.
Qed.

Lemma configure_cache_inv (l : nat) (st st' : State) (u : unit) :
  configure_cache l st = (Ret u, st') ->
  exists s ps i,
    sessions st !! l = Some s /\
    components s !! "credential_provider" = Some (CredentialResolver ps) /\
    provider_offset ps "assume-role" = Some i.
Proof.
  unfold configure_cache, load_session, get_component. step.
  destruct (sessions st !! l) as [s|] eqn:Hl; [|discriminate]. cbn.
  destruct (components s !! "credential_provider") as [[ps| |]|] eqn:Hc;
    [|discriminate..]. cbn.
  destruct (provider_offset ps "assume-role") as [i|] eqn:Hi; [|discriminate].
  intros _. by exists s, ps, i.
Qed.

Lemma derive_inv (host : Host) (st st1 : State) args vars :
  derive host st = (Ret (args, vars), st1) ->
  let s0 := botocore_session host (ns_profile args) in
  exists ps i config creds,
    argparse (tail (sys_argv host)) = Ret args /\
    components s0 !! "credential_provider" = Some (CredentialResolver ps) /\
    provider_offset ps "assume-role" = Some i /\
    scoped_config s0 = Ret config /\
    resolve s0 (patched ps i) = Ret (Some creds) /\
    vars = derived_vars config creds (environ st !! "AWS_TOKEN_TYPE") /\
    environ st1 = environ st /\
    heap st1 = heap st /\
    log st1 = (log st ++ derive_log (ns_profile args) (patched ps i))%list.
Proof.
  unfold derive, parse_args. step.
  destruct (argparse (tail (sys_argv host))) as [a|] eqn:Hargs;
    [|discriminate]. cbn.
  set (l := fresh (dom (sessions st))).
  set (s := mkSession _ _ _ _).
  set (st2 := mkState _ _ (<[l := s]> _) _).
  destruct (configure_cache l st2) as [[[]|] st3] eqn:Hcc; [|discriminate].
  destruct (configure_cache_inv _ _ _ _ Hcc) as (s' & ps & i & Hl & Hc & Hi).
  assert (s' = s) as ->.
  { subst st2. cbn in Hl. rewrite lookup_insert_eq in Hl. congruence. }
  rewrite (configure_cache_returns _ _ _ _ _ Hl Hc Hi) in Hcc.
  injection Hcc as <-.
  destruct (session_vars l _) as [[v|] st4] eqn:Hsv; [|discriminate].
  destruct (session_vars_inv _ _ _ _ Hsv) as (s'' & ps' & config & creds & Hl' & Hc' & Hcfg & Hres).
  cbn in Hl'. rewrite lookup_insert_eq in Hl'. injection Hl' as <-.
  cbn in Hc'. rewrite lookup_insert_eq in Hc'. injection Hc' as <-.
  erewrite session_vars_returns in Hsv;
    [|cbn; apply lookup_insert_eq|cbn; apply lookup_insert_eq|exact Hcfg|exact Hres].
  injection Hsv as <- <-.
  intros [= <- <- <-]. cbn.
  exists ps, i, config, creds. repeat split; try done.
  by rewrite <- !app_assoc.
Qed.

(** ** Running the two branches *)

Lemma for_each_print_run (vars : pydict) (st : State) :
  for_each vars (fun kv => print (format_export kv.1 kv.2)) st =
    (Ret tt,
     mkState (environ st) (heap st) (sessions st)
       (log st ++ map (fun kv => EvPrint (format_export kv.1 kv.2)) vars)).
Proof.
  revert st. induction vars as [|kv vars IH]; intros st; cbn.
  - unfold ret. rewrite app_nil_r. by destruct st.
  - unfold bind, print, emit. rewrite IH. cbn. by rewrite <- app_assoc.
Qed.

Lemma output_export_run (host : Host) args vars (st : State) :
  ns_export args = true ->
  output host args vars st =
    (Ret tt,
     mkState (environ st) (heap st) (sessions st)
       (log st ++ map EvPrint (export_lines vars))).
Proof.
  intros He. unfold output. rewrite He. unfold bind, print, emit. cbn.
  rewrite for_each_print_run. cbn.
  rewrite <- !app_assoc. cbn. by rewrite map_map.
Qed.

Lemma output_call_run (host : Host) args vars (st : State) :
  ns_export args = false ->
  let d := child_env (environ st) vars in
  exists h,
    output host args vars st =
      (exit_with (child host (ns_command args) d),
       mkState (environ st) h (sessions st)
         (log st ++ [EvCall (ns_command args) d])).
Proof.
  intros He d. unfold output. rewrite He.
  unfold os_environ_copy, unset_profile, dict_pop, dict_update, subprocess_call.
  step.
  set (l := fresh (dom (heap st))).
  set (l' := fresh (dom (<[l := VStr <$> environ st]> (heap st)))).
  assert (Hne : l' <> l).
  { intros Heq. pose proof (fresh_lookup_None (<[l := VStr <$> environ st]> (heap st))) as Hf.
    fold l' in Hf. rewrite Heq, lookup_insert_eq in Hf. discriminate. }
  rewrite lookup_alter_eq, !lookup_alter_ne, lookup_insert_ne, lookup_insert_eq
    by exact Hne.
  cbn. fold (child_env (environ st) vars). fold d.
  eexists. unfold exit_with, sys_exit, raise, lift.
  destruct (child host (ns_command args) d); reflexivity.
Qed.

Lemma main_unfold (host : Host) (st : State) :
  main host st =
    match derive host st with
    | (Ret (args, vars), st1) => output host args vars st1
    | (Raise e, st1) => (Raise e, st1)
    end.
Proof.
  unfold main, derive, output, bind.
  destruct (parse_args host (sys_argv host) st) as [[args|] st0]; [|reflexivity].
  destruct (new_session host (ns_profile args) st0) as [[l|] st1]; [|reflexivity].
  destruct (configure_cache l st1) as [[[]|] st2]; [|reflexivity].
  destruct (session_vars l st2) as [[vars|] st3]; reflexivity.
Qed.

(** ** Lookups in the derived dictionary and in the child's environment *)

Lemma dict_get_None (d : pydict) (k : string) :
  dict_get d k = None <-> k ∉ keys d.
Proof.
  unfold keys. induction d as [|[k' v] d IH]; cbn.
  - split; [intros _; apply not_elem_of_nil|done].
  - rewrite not_elem_of_cons. destruct (decide (k' = k)) as [->|Hne].
    + split; [discriminate|]. intros [[] _]. reflexivity.
    + rewrite IH. split; [intros H; split; [congruence|exact H]|tauto].
Qed.

Lemma update_with_lookup_None (vars : pydict) (m : gmap string value) k :
  dict_get vars k = None -> update_with vars m !! k = m !! k.
Proof.
  unfold update_with. revert m.
  induction vars as [|[k' v] vars IH]; intros m; cbn; [done|].
  destruct (decide (k' = k)) as [->|Hne]; [discriminate|].
  intros H. rewrite IH by exact H. by apply lookup_insert_ne.
Qed.

Lemma update_with_lookup_Some (vars : pydict) (m : gmap string value) k v :
  NoDup (keys vars) -> dict_get vars k = Some v ->
  update_with vars m !! k = Some v.
Proof.
  unfold update_with, keys. revert m.
  induction vars as [|[k' v'] vars IH]; intros m; cbn; [done|].
  intros [Hk' Hnd]%NoDup_cons.
  destruct (decide (k' = k)) as [->|Hne].
  - intros [= ->].
    pose proof (update_with_lookup_None vars (<[k:=v]> m) k) as Hn.
    unfold update_with in Hn. rewrite Hn by (by apply dict_get_None).
    apply lookup_insert_eq.
  - intros H. by apply IH.
Qed.

Lemma derived_vars_keys config creds token_type :
  keys (derived_vars config creds token_type) =
    if truthy (token creds) then (base_keys ++ [token_var token_type])%list
    else base_keys.
Proof. unfold derived_vars. by destruct (truthy (token creds)). Qed.

Lemma derived_vars_NoDup config creds token_type :
  NoDup (keys (derived_vars config creds token_type)).
Proof.
  rewrite derived_vars_keys. unfold token_var.
  destruct (truthy (token creds)); [destruct (decide _)|];
    apply (bool_decide_unpack _); vm_compute; exact I.
Qed.

Lemma derived_vars_no_profile config creds token_type k :
  k ∈ ["AWS_PROFILE"; "AWS_DEFAULT_PROFILE"] ->
  dict_get (derived_vars config creds token_type) k = None.
Proof.
  intros Hk. apply dict_get_None. rewrite derived_vars_keys. unfold token_var.
  revert Hk. rewrite !elem_of_cons, elem_of_nil.
  intros [->|[->|[]]];
    (destruct (truthy (token creds)); [destruct (decide _)|]);
    apply (bool_decide_unpack _); vm_compute; exact I.
Qed.

(** ** The provider chain after [configure_cache] *)

Lemma provider_offset_Some (ps : list Provider) (name : string) (i : nat) :
  provider_offset ps name = Some i ->
  exists p, ps !! i = Some p /\ METHOD p = name.
Proof.
  revert i. induction ps as [|p ps IH]; intros i; cbn; [discriminate|].
  destruct (decide (METHOD p = name)) as [Hm|Hm].
  - intros [= <-]. by exists p.
  - destruct (provider_offset ps name) as [j|]; [|discriminate].
    intros [= <-]. cbn. by apply IH.
Qed.

Lemma provider_offset_alter (ps : list Provider) (name : string) c i :
  provider_offset (alter (set_cache c) i ps) name = provider_offset ps name.
Proof.
  revert i. induction ps as [|p ps IH]; intros [|i]; cbn; try done.
  by rewrite IH.
Qed.

Lemma get_provider_patched (ps : list Provider) (i : nat) :
  provider_offset ps "assume-role" = Some i ->
  get_provider (patched ps i) "assume-role" =
    Ret (mkProvider "assume-role" (CacheFixedJSONFile CACHE_DIR)).
Proof.
  intros Hi. unfold get_provider, patched.
  rewrite provider_offset_alter, Hi.
  destruct (provider_offset_Some _ _ _ Hi) as (p & Hp & Hm).
  rewrite list_lookup_alter_eq, Hp. cbn. unfold set_cache. by rewrite Hm.
Qed.

(** ** The events of [derive], on every path *)

Lemma configure_cache_cases (l : nat) (st : State) :
  (exists s ps i,
     sessions st !! l = Some s /\
     components s !! "credential_provider" = Some (CredentialResolver ps) /\
     provider_offset ps "assume-role" = Some i) \/
  (exists e, configure_cache l st = (Raise e, st)).
Proof.
  unfold configure_cache, load_session, get_component. step.
  destruct (sessions st !! l) as [s|] eqn:Hl; cbn; [|by right; eexists].
  destruct (components s !! "credential_provider") as [[ps| |]|] eqn:Hc; cbn;
    [|by right; eexists..].
  destruct (provider_offset ps "assume-role") as [i|] eqn:Hi; cbn;
    [|by right; eexists].
  left. by exists s, ps, i.
Qed.

Lemma session_vars_trace (l : nat) (s : Session) (st : State) ps :
  sessions st !! l = Some s ->
  components s !! "credential_provider" = Some (CredentialResolver ps) ->
  exists evs,
    log (session_vars l st).2 = (log st ++ evs)%list /\
    evs `prefix_of` [EvGetScopedConfig; EvGetCredentials ps].
Proof.
  intros Hl Hc.
  destruct (scoped_config s) as [config|e] eqn:Hcfg.
  - destruct (resolve s ps) as [[creds|]|e] eqn:Hres.
    + rewrite (session_vars_returns _ _ _ _ _ _ Hl Hc Hcfg Hres). cbn.
      by eexists.
    + exists [EvGetScopedConfig; EvGetCredentials ps]. split; [|done].
      unfold session_vars, get_scoped_config, get_credentials, load_session,
        get_component. step.
      rewrite Hl. cbn. rewrite Hcfg. cbn. rewrite Hl. cbn. rewrite Hc. cbn.
      rewrite Hres. cbn. by rewrite <- app_assoc.
    + exists [EvGetScopedConfig; EvGetCredentials ps]. split; [|done].
      unfold session_vars, get_scoped_config, get_credentials, load_session,
        get_component. step.
      rewrite Hl. cbn. rewrite Hcfg. cbn. rewrite Hl. cbn. rewrite Hc. cbn.
      rewrite Hres. cbn. by rewrite <- app_assoc.
  - exists [EvGetScopedConfig]. split; [|by eexists].
    unfold session_vars, get_scoped_config, load_session. step.
    rewrite Hl. cbn. by rewrite Hcfg.
Qed.

Lemma derive_trace (host : Host) (st : State) :
  exists p ps evs,
    log (derive host st).2 = (log st ++ evs)%list /\
    evs `prefix_of` derive_log p ps /\
    has_fixed_cache ps.
Proof.
  pose (dummy := [mkProvider "assume-role" (CacheFixedJSONFile CACHE_DIR)]).
  assert (Hd : has_fixed_cache dummy) by reflexivity.
  unfold derive, parse_args. step.
  destruct (argparse (tail (sys_argv host))) as [a|] eqn:Hargs; cbn.
  2:{ exists None, dummy, [EvParseArgs]. split; [done|]. split; [|done].
      by eexists. }
  set (l := fresh (dom (sessions st))).
  set (s := mkSession _ _ _ _).
  set (st2 := mkState _ _ _ _).
  destruct (configure_cache_cases l st2) as [(s' & ps & i & Hl & Hc & Hi)|[e He]].
  2:{ rewrite He. exists (ns_profile a), dummy, [EvParseArgs; EvSession (ns_profile a)].
      cbn. rewrite <- app_assoc. split; [done|]. split; [by eexists|done]. }
  rewrite (configure_cache_returns _ _ _ _ _ Hl Hc Hi).
  set (st3 := mkState _ _ _ _).
  destruct (session_vars_trace l (patch_session s' ps i) st3 (patched ps i))
    as (evs & Hlog & Hpre).
  { apply lookup_insert_eq. }
  { apply lookup_insert_eq. }
  exists (ns_profile a), (patched ps i),
    ([EvParseArgs; EvSession (ns_profile a);
      EvSetCache (CacheFixedJSONFile CACHE_DIR)] ++ evs)%list.
  split; [|split].
  - destruct (session_vars l st3) as [[v|e] st4]; cbn in *;
      rewrite Hlog; by rewrite <- !app_assoc.
  - unfold derive_log.
    change ([EvParseArgs; EvSession (ns_profile a);
             EvSetCache (CacheFixedJSONFile CACHE_DIR); EvGetScopedConfig;
             EvGetCredentials (patched ps i)])
      with ([EvParseArgs; EvSession (ns_profile a);
             EvSetCache (CacheFixedJSONFile CACHE_DIR)] ++
            [EvGetScopedConfig; EvGetCredentials (patched ps i)])%list.
    by apply prefix_app.
  - by apply get_provider_patched.
Qed.

(** ** Running [main] *)

Lemma main_run (host : Host) (st st1 : State) args vars :
  derive host st = (Ret (args, vars), st1) ->
  exists ps,
    has_fixed_cache ps /\
    log (main host st).2 =
      (log st ++ derive_log (ns_profile args) ps ++ outputs args (environ st) vars)%list /\
    (main host st).1 =
      if ns_export args then Ret tt
      else exit_with (child host (ns_command args) (child_env (environ st) vars)).
Proof.
  intros Hd. rewrite main_unfold, Hd.
  destruct (derive_inv _ _ _ _ _ Hd)
    as (ps & i & config & creds & _ & _ & Hi & _ & _ & _ & Henv & _ & Hlog).
  exists (patched ps i). split; [by apply get_provider_patched|].
  unfold outputs. destruct (ns_export args) eqn:He.
  - rewrite output_export_run by exact He. cbn.
    by rewrite Hlog, <- app_assoc.
  - destruct (output_call_run host args vars st1 He) as [h ->]. cbn.
    by rewrite Hlog, Henv, <- app_assoc.
Qed.

Lemma main_aborted (host : Host) (st st1 : State) e :
  derive host st = (Raise e, st1) -> main host st = (Raise e, st1).
Proof. intros Hd. by rewrite main_unfold, Hd. Qed.

Lemma printed_app (l1 l2 : list event) :
  printed (l1 ++ l2) = (printed l1 ++ printed l2)%list.
Proof. unfold printed. induction l1 as [|[] l1 IH]; cbn; by rewrite ?IH. Qed.

Lemma calls_app (l1 l2 : list event) :
  calls (l1 ++ l2) = (calls l1 ++ calls l2)%list.
Proof. unfold calls. induction l1 as [|[] l1 IH]; cbn; by rewrite ?IH. Qed.

Lemma printed_prints (lines : list string) : printed (map EvPrint lines) = lines.
Proof. unfold printed. induction lines as [|x lines IH]; cbn; by rewrite ?IH. Qed.


Lemma derive_prefix_quiet (p : option string) ps (evs : list event) :
  evs `prefix_of` derive_log p ps ->
  printed evs = [] /\ calls evs = [] /\ Forall (fun e => stage e < 4) evs.
Proof.
  intros [k Hk]. unfold derive_log in Hk.
  assert (Hall : Forall (fun e => stage e < 4) (evs ++ k)).
  { rewrite <- Hk. repeat constructor. }
  apply Forall_app in Hall as [Hall _].
  split; [|split]; [| |exact Hall].
  - clear Hk. unfold printed. induction Hall as [|e evs He _ IH]; [done|].
    destruct e; cbn in *; try done; lia.
  - clear Hk. unfold calls. induction Hall as [|e evs He _ IH]; [done|].
    destruct e; cbn in *; try done; lia.
Qed.

Lemma outputs_stage args environ vars :
  Forall (fun e => stage e = 4) (outputs args environ vars) /\
  outputs args environ vars <> [].
Proof.
  unfold outputs. destruct (ns_export args).
  - split; [|done]. apply Forall_forall. intros e [s [-> _]]%list_elem_of_fmap.
    reflexivity.
  - split; [|done]. by repeat constructor.
Qed.

Lemma main_trace (host : Host) (st : State) :
  exists p ps pre outs,
    log (main host st).2 = (log st ++ pre ++ outs)%list /\
    pre `prefix_of` derive_log p ps /\
    has_fixed_cache ps /\
    Forall (fun e => stage e = 4) outs /\
    (outs <> [] -> pre = derive_log p ps).
Proof.
  destruct (derive host st) as [[[args vars]|e] st1] eqn:Hd.
  - destruct (main_run _ _ _ _ _ Hd) as (ps & Hfix & Hlog & _).
    exists (ns_profile args), ps, (derive_log (ns_profile args) ps),
      (outputs args (environ st) vars).
    split; [exact Hlog|]. split; [done|]. split; [exact Hfix|].
    split; [apply outputs_stage|done].
  - destruct (derive_trace host st) as (p & ps & evs & Hlog & Hpre & Hfix).
    rewrite Hd in Hlog. cbn in Hlog.
    exists p, ps, evs, []. rewrite (main_aborted _ _ _ _ Hd). cbn.
    rewrite app_nil_r. by repeat split.
Qed.

Lemma derive_log_sorted p ps :
  StronglySorted (fun a b => stage a <= stage b) (derive_log p ps).
Proof. unfold derive_log. repeat constructor. Qed.

Lemma prefix_get_credentials p ps ps' (pre : list event) :
  pre `prefix_of` derive_log p ps ->
  EvGetCredentials ps' ∈ pre ->
  ps' = ps /\ pre = derive_log p ps.
Proof.
  intros [k Hk] Hin. unfold derive_log in *.
  destruct pre as [|e0 [|e1 [|e2 [|e3 [|e4 [|e5 pre]]]]]]; cbn in Hk;
    try discriminate Hk; inversion Hk; subst; revert Hin;
    rewrite ?elem_of_cons, ?elem_of_nil; intuition (try discriminate).
  match goal with H : EvGetCredentials _ = _ |- _ => by inversion H end.
Qed.

Lemma same_stage_sorted (n : nat) (evs : list event) :
  Forall (fun e => stage e = n) evs ->
  StronglySorted (fun a b => stage a <= stage b) evs.
Proof.
  induction 1 as [|e evs He Hevs IH]; constructor; [exact IH|].
  apply Forall_forall. intros b Hb. rewrite Forall_forall in Hevs.
  rewrite He, (Hevs b Hb). lia.
Qed.

Lemma main_run_outputs (host : Host) (env : gmap string string) args vars st1 :
  derive host (initial env) = (Ret (args, vars), st1) ->
  printed (log (main host (initial env)).2) = printed (outputs args env vars) /\
  calls (log (main host (initial env)).2) = calls (outputs args env vars).
Proof.
  intros Hd. destruct (main_run _ _ _ _ _ Hd) as (ps & _ & -> & _).
  by rewrite !printed_app, !calls_app.
Qed.

(** ** The head of the log *)

Lemma derive_log_head (host : Host) (st : State) :
  match argparse (tail (sys_argv host)) with
  | Ret args =>
      exists evs,
        log (derive host st).2 =
          (log st ++ EvParseArgs :: EvSession (ns_profile args) :: evs)%list
  | Raise e =>
      derive host st =
        (Raise e,
         mkState (environ st) (heap st) (sessions st) (log st ++ [EvParseArgs]))
  end.
Proof.
  unfold derive, parse_args. step.
  destruct (argparse (tail (sys_argv host))) as [a|e]; cbn; [|done].
  set (l := fresh (dom (sessions st))).
  set (s := mkSession _ _ _ _).
  set (st2 := mkState _ _ _ _).
  destruct (configure_cache_cases l st2) as [(s' & ps & i & Hl & Hc & Hi)|[e He]].
  2:{ rewrite He. exists []. cbn. by rewrite <- app_assoc. }
  rewrite (configure_cache_returns _ _ _ _ _ Hl Hc Hi).
  set (st3 := mkState _ _ _ _).
  destruct (session_vars_trace l (patch_session s' ps i) st3 (patched ps i))
    as (evs & Hlog & _); [apply lookup_insert_eq..|].
  exists (EvSetCache (CacheFixedJSONFile CACHE_DIR) :: evs).
  destruct (session_vars l st3) as [[v|e] st4]; cbn in *;
    rewrite Hlog; by rewrite <- !app_assoc.
Qed.

Lemma main_log_head (host : Host) (env : gmap string string) :
  match argparse (tail (sys_argv host)) with
  | Ret args =>
      exists evs,
        log (main host (initial env)).2 =
          EvParseArgs :: EvSession (ns_profile args) :: evs
  | Raise e =>
      main host (initial env) = (Raise e, mkState env ∅ ∅ [EvParseArgs])
  end.
Proof.
  pose proof (derive_log_head host (initial env)) as Hh.
  destruct (argparse (tail (sys_argv host))) as [args|e] eqn:Hargs.
  - destruct (derive host (initial env)) as [[[args' vars]|e] st1] eqn:Hd.
    + destruct (main_run _ _ _ _ _ Hd) as (ps & _ & Hlog & _).
      destruct (derive_inv _ _ _ _ _ Hd) as (_ & _ & _ & _ & Hargs' & _).
      assert (args' = args) as -> by congruence.
      rewrite Hlog. by eexists.
    + rewrite (main_aborted _ _ _ _ Hd). exact Hh.
  - by rewrite (main_aborted _ _ _ _ Hh).
Qed.

(** ** The environment of the child holds strings when the mapping does *)



Lemma example_derive (export : bool) (returncode : Z) :
  derive (example_host export returncode) (initial example_environ) =
    (Ret (example_args export, example_vars),
     (derive (example_host export returncode) (initial example_environ)).2).
Proof. destruct export; vm_compute; reflexivity. Defined.

(** ** Properties of [main] *)

(** C1. When [main] runs without the export flag, the environment it
    hands to [subprocess.call] is the parent environment updated with the
    derived mapping: every key of the derived mapping carries the derived
    value, and every other variable is the parent's, unchanged.  In
    particular [AWS_PROFILE] and [AWS_DEFAULT_PROFILE] are passed through as
    the parent has them. *)
Theorem main_child_environment (host : Host) (env : gmap string string)
    args vars st1 :
  derive host (initial env) = (Ret (args, vars), st1) ->
  ns_export args = false ->
  exists d,
    calls (log (main host (initial env)).2) = [(ns_command args, d)] /\
    (forall k v, dict_get vars k = Some v -> d !! k = Some v) /\
    (forall k, dict_get vars k = None -> d !! k = VStr <$> env !! k) /\
    d !! "AWS_PROFILE" = VStr <$> env !! "AWS_PROFILE" /\
    d !! "AWS_DEFAULT_PROFILE" = VStr <$> env !! "AWS_DEFAULT_PROFILE".
Proof.
  intros Hd He.
  destruct (main_run _ _ _ _ _ Hd) as (ps & _ & Hlog & _).
  destruct (derive_inv _ _ _ _ _ Hd)
    as (_ & _ & config & creds & _ & _ & _ & _ & _ & Hvars & _).
  exists (child_env env vars). rewrite Hlog. unfold outputs. rewrite He. cbn.
  split; [reflexivity|]. unfold child_env.
  assert (Hnone : forall k, dict_get vars k = None ->
            update_with vars (VStr <$> env) !! k = VStr <$> env !! k).
  { intros k Hk. rewrite update_with_lookup_None by exact Hk.
    apply lookup_fmap. }
  split; [|split; [exact Hnone|]].
  - intros k v Hk. apply update_with_lookup_Some; [|exact Hk].
    rewrite Hvars. apply derived_vars_NoDup.
  - split; apply Hnone; rewrite Hvars; apply derived_vars_no_profile;
      rewrite !elem_of_cons; auto.
Qed.

Lemma main_child_environment_witness :
  exists d,
    calls (log (main (example_host false 0) (initial example_environ)).2) =
      [(["ls"; "-l"], d)] /\
    (forall k v, dict_get example_vars k = Some v -> d !! k = Some v) /\
    (forall k, dict_get example_vars k = None ->
       d !! k = VStr <$> example_environ !! k) /\
    d !! "AWS_PROFILE" = VStr <$> example_environ !! "AWS_PROFILE" /\
    d !! "AWS_DEFAULT_PROFILE" = VStr <$> example_environ !! "AWS_DEFAULT_PROFILE".
Proof.
  exact (main_child_environment (example_host false 0) example_environ
           (example_args false) example_vars _ (example_derive false 0) eq_refl).
Defined.

(** ** The two branches of [main] *)


Lemma python_subprocess_call_refused
    (os_run : list string -> gmap string string -> res Z)
    (cmd : list string) (d : gmap string value) :
  startable (cmd, d) = false ->
  python_subprocess_call os_run cmd d =
    Raise (if bool_decide (cmd = []) then IndexError else TypeError).
Proof.
  unfold startable, python_subprocess_call, strings_of. cbn.
  destruct cmd as [|c cmd]; [reflexivity|].
  rewrite bool_decide_eq_false_2 by done. cbn. by intros ->.
Qed.



(** The same for a profile without a region: the command is there, but
    the environment holds [None] under [AWS_REGION] and [subprocess.call]
    raises [TypeError] before anything is started. *)
Example main_no_region_spawns_nothing :
  spawned (log (main no_region_run_host (initial example_environ)).2) = [] /\
  (main no_region_run_host (initial example_environ)).1 = Raise TypeError.
Proof. split; vm_compute; reflexivity. Qed.






(** X2. A run whose arguments parse and that an exception then stops
    before the branch (in the cache injection or in [session_vars]) ends
    with that exception: the session has been built for the profile of
    the command line, none of the [print] statements of [main] has run
    and [subprocess.call] has not been called. *)
Lemma main_aborted_silent (host : Host) (env : gmap string string) args e st1 :
  argparse (tail (sys_argv host)) = Ret args ->
  derive host (initial env) = (Raise e, st1) ->
  (main host (initial env)).1 = Raise e /\
  (exists evs,
     log (main host (initial env)).2 =
       EvParseArgs :: EvSession (ns_profile args) :: evs) /\
  printed (log (main host (initial env)).2) = [] /\
  calls (log (main host (initial env)).2) = [].
Proof.
  intros Hargs Hd.
  pose proof (main_log_head host env) as Hhead. rewrite Hargs in Hhead.
  split; [|split; [exact Hhead|]].
  - by rewrite (main_aborted _ _ _ _ Hd).
  - rewrite (main_aborted _ _ _ _ Hd). cbn.
    destruct (derive_trace host (initial env)) as (p & ps & evs & Hlog & Hpre & _).
    rewrite Hd in Hlog. cbn in Hlog. rewrite Hlog.
    destruct (derive_prefix_quiet _ _ _ Hpre) as (Hp & Hc & _). by split.
Qed.

(** C7. In export mode the program prints, in this order, the line
    [unset AWS_DEFAULT_PROFILE;], the line [unset AWS_PROFILE;] and one
    line [export VAR=value;] for each entry of the derived mapping, in the
    order of [items()]; these prints are all that happens after the
    derivation, and [main] returns normally. *)
Theorem main_export_lines (host : Host) (env : gmap string string)
    args vars st1 :
  derive host (initial env) = (Ret (args, vars), st1) ->
  ns_export args = true ->
  printed (log (main host (initial env)).2) =
    "unset AWS_DEFAULT_PROFILE;" :: "unset AWS_PROFILE;" ::
    map (fun kv => "export " +:+ kv.1 +:+ "=" +:+ str kv.2 +:+ ";") vars /\
  (exists ps,
     log (main host (initial env)).2 =
       (derive_log (ns_profile args) ps ++
        map EvPrint (printed (log (main host (initial env)).2)))%list) /\
  (main host (initial env)).1 = Ret tt.
Proof.
  intros Hd He.
  destruct (main_run_outputs _ _ _ _ _ Hd) as [Hp _].
  destruct (main_run _ _ _ _ _ Hd) as (ps & _ & Hlog & Hres).
  rewrite Hp, Hres, Hlog. unfold outputs. rewrite He, printed_prints.
  split; [reflexivity|]. split; [by exists ps|reflexivity].
Qed.

Lemma main_export_lines_witness :
  printed (log (main (example_host true 0) (initial example_environ)).2) =
    ["unset AWS_DEFAULT_PROFILE;"; "unset AWS_PROFILE;";
     "export AWS_DEFAULT_REGION=eu-west-1;"; "export AWS_REGION=eu-west-1;";
     "export AWS_ACCESS_KEY_ID=AKIAEXAMPLE;";
     "export AWS_SECRET_ACCESS_KEY=secret;";
     "export AWS_SESSION_TOKEN=token;"].
Proof.
  exact (proj1 (main_export_lines (example_host true 0) example_environ
                  (example_args true) example_vars _ (example_derive true 0)
                  eq_refl)).
Defined.

(** C4. The steps of [main] happen in one fixed order: the arguments are
    parsed, the session is built for [args.profile], the cache is set on
    the assume-role provider, the scoped configuration and the credentials
    are read, and only then does the program print or call the command.
    Whenever credentials are resolved, the chain they are resolved through
    already holds the [FixedJSONFileCache], set by an earlier event.  The
    profile is read off [sys.argv[1:]]: when the parser returns, the
    session is built for the profile of its namespace, which is [None] for
    a command line of export flags only and the first word that is not a
    flag for [aws-profile [-e ...] PROFILE WORDS...]; when the parser
    raises, nothing follows the parse. *)
Theorem main_steps_in_order (host : Host) (env : gmap string string) :
  let l := log (main host (initial env)).2 in
  StronglySorted (fun a b => stage a <= stage b) l /\
  (forall ps, EvGetCredentials ps ∈ l ->
     has_fixed_cache ps /\
     exists before after,
       l = (before ++ EvGetCredentials ps :: after)%list /\
       EvSetCache (CacheFixedJSONFile CACHE_DIR) ∈ before) /\
  (forall args vars st1,
     derive host (initial env) = (Ret (args, vars), st1) ->
     exists ps outs,
       l = ([EvParseArgs; EvSession (ns_profile args);
             EvSetCache (CacheFixedJSONFile CACHE_DIR);
             EvGetScopedConfig; EvGetCredentials ps] ++ outs)%list /\
       outs <> [] /\
       Forall (fun e => stage e = 4) outs) /\
  (forall args, argparse (tail (sys_argv host)) = Ret args ->
     exists evs, l = EvParseArgs :: EvSession (ns_profile args) :: evs) /\
  (forall e, argparse (tail (sys_argv host)) = Raise e -> l = [EvParseArgs]) /\
  (Forall export_flag (tail (sys_argv host)) ->
     exists evs, l = EvParseArgs :: EvSession None :: evs) /\
  (forall flags p words,
     tail (sys_argv host) = (flags ++ p :: words)%list ->
     Forall export_flag flags -> plain p = true ->
     Forall (fun s => String.prefix "--=" s = false) words ->
     exists evs, l = EvParseArgs :: EvSession (Some p) :: evs).
Proof.
  cbv zeta.
  destruct (main_trace host (initial env))
    as (p & ps & pre & outs & Hlog & Hpre & Hfix & Houts & Hfull).
  change (log (initial env)) with (@nil event) in Hlog.
  rewrite app_nil_l in Hlog.
  destruct (derive_prefix_quiet _ _ _ Hpre) as (_ & _ & Hlt).
  pose proof (main_log_head host env) as Hhead.
  split; [|split; [|split; [|split; [|split; [|split]]]]].
  - rewrite Hlog. apply StronglySorted_app_2.
    + intros a b Ha Hb.
      rewrite Forall_forall in Hlt, Houts.
      specialize (Hlt a Ha). specialize (Houts b Hb). lia.
    + destruct Hpre as [k Hk]. pose proof (derive_log_sorted p ps) as Hs.
      rewrite Hk in Hs. by apply StronglySorted_app_1_l in Hs.
    + by apply (same_stage_sorted 4).
  - intros ps' Hin. rewrite Hlog in Hin. apply elem_of_app in Hin as [Hin|Hin].
    + destruct (prefix_get_credentials _ _ _ _ Hpre Hin) as [-> ->].
      split; [exact Hfix|].
      exists [EvParseArgs; EvSession p; EvSetCache (CacheFixedJSONFile CACHE_DIR);
              EvGetScopedConfig], outs.
      split; [exact Hlog|]. rewrite !elem_of_cons. auto.
    + rewrite Forall_forall in Houts. by specialize (Houts _ Hin).
  - intros args vars st1 Hd.
    destruct (main_run _ _ _ _ _ Hd) as (ps' & _ & Hlog' & _).
    exists ps', (outputs args env vars). split; [exact Hlog'|].
    destruct (outputs_stage args env vars). by split.
  - intros args Hargs. by rewrite Hargs in Hhead.
  - intros e Hargs. rewrite Hargs in Hhead. by rewrite Hhead.
  - intros Hf. by rewrite (argparse_flags_only _ Hf) in Hhead.
  - intros flags q words Hargv Hf Hq Hw.
    by rewrite Hargv, (argparse_profile_command _ _ _ Hf Hq Hw) in Hhead.
Qed.

Lemma main_steps_in_order_witness :
  (exists ps outs,
     log (main (example_host false 0) (initial example_environ)).2 =
       ([EvParseArgs; EvSession (Some "dev");
         EvSetCache (CacheFixedJSONFile CACHE_DIR);
         EvGetScopedConfig; EvGetCredentials ps] ++ outs)%list /\
     outs <> [] /\
     Forall (fun e => stage e = 4) outs) /\
  (exists evs,
     log (main (example_host true 0) (initial example_environ)).2 =
       EvParseArgs :: EvSession (Some "dev") :: evs) /\
  (exists evs,
     log (main (flags_only_host ["-e"]) (initial example_environ)).2 =
       EvParseArgs :: EvSession None :: evs).
Proof.
  split; [|split].
  - exact (proj1 (proj2 (proj2
             (main_steps_in_order (example_host false 0) example_environ)))
             (example_args false) example_vars _ (example_derive false 0)).
  - refine (proj2 (proj2 (proj2 (proj2 (proj2 (proj2
              (main_steps_in_order (example_host true 0) example_environ))))))
              ["-e"] "dev" [] eq_refl _ eq_refl _).
    + repeat constructor.
    + constructor.
  - refine (proj1 (proj2 (proj2 (proj2 (proj2 (proj2
              (main_steps_in_order (flags_only_host ["-e"]) example_environ))))))
              _).
    repeat constructor.
Defined.

(** A profile the configuration does not have: the session is built, and
    [configure_cache] raises [ProfileNotFound] when it asks for the
    credential provider.  No cache is set and nothing is derived. *)
Example main_missing_profile :
  main (python_host ["aws-profile"; "nosuch"; "ls"] missing_profile_session
          (fun _ _ => Ret 0%Z)) (initial example_environ) =
    (Raise ProfileNotFound,
     mkState example_environ ∅
       (<[0 := missing_profile_session (Some "nosuch")]> ∅)
       [EvParseArgs; EvSession (Some "nosuch")]).
Proof. vm_compute. reflexivity. Qed.

Lemma WEXITSTATUS_small (returncode : Z) :
  (0 <= returncode <= 255)%Z -> WEXITSTATUS returncode = 0%Z.
Proof.
  intros Hr. unfold WEXITSTATUS.
  rewrite Z.shiftr_div_pow2 by lia.
  rewrite Z.div_small by lia. reflexivity.
Qed.

(** C9. Without the export flag the wrapper exits with
    [os.WEXITSTATUS(returncode)], that is [(returncode >> 8) & 0xff], where
    [returncode] is what [subprocess.call] returned.  For a child exit code
    between 0 and 255 this is 0. *)
Theorem main_exit_status (host : Host) (env : gmap string string)
    args vars st1 (returncode : Z) :
  derive host (initial env) = (Ret (args, vars), st1) ->
  ns_export args = false ->
  child host (ns_command args) (child_env env vars) = Ret returncode ->
  (main host (initial env)).1 =
    Raise (SystemExit (Z.land (Z.shiftr returncode 8) 255)) /\
  exit_status (main host (initial env)).1 = Z.land (Z.shiftr returncode 8) 255 /\
  ((0 <= returncode <= 255)%Z -> exit_status (main host (initial env)).1 = 0%Z).
Proof.
  intros Hd He Hchild.
  destruct (main_run _ _ _ _ _ Hd) as (ps & _ & _ & Hres).
  change (environ (initial env)) with env in Hres.
  rewrite He, Hchild in Hres. rewrite Hres.
  split; [reflexivity|]. split; [reflexivity|]. apply WEXITSTATUS_small.
Qed.

Lemma main_exit_status_witness :
  (main (example_host false 3) (initial example_environ)).1 =
    Raise (SystemExit (Z.land (Z.shiftr 3 8) 255)) /\
  exit_status (main (example_host false 3) (initial example_environ)).1 =
    Z.land (Z.shiftr 3 8) 255 /\
  ((0 <= 3 <= 255)%Z ->
   exit_status (main (example_host false 3) (initial example_environ)).1 = 0%Z).
Proof.
  exact (main_exit_status (example_host false 3) example_environ
           (example_args false) example_vars _ 3 (example_derive false 3)
           eq_refl eq_refl).
Defined.

(** ** Properties of [session_vars] *)

Lemma session_vars_derived (l : nat) (st st' : State) (vars : pydict) :
  session_vars l st = (Ret vars, st') ->
  exists s ps config creds,
    sessions st !! l = Some s /\
    components s !! "credential_provider" = Some (CredentialResolver ps) /\
    scoped_config s = Ret config /\
    resolve s ps = Ret (Some creds) /\
    vars = derived_vars config creds (environ st !! "AWS_TOKEN_TYPE").
Proof.
  intros Hsv.
  destruct (session_vars_inv _ _ _ _ Hsv)
    as (s & ps & config & creds & Hl & Hc & Hcfg & Hres).
  exists s, ps, config, creds. repeat split; try done.
  rewrite (session_vars_returns _ _ _ _ _ _ Hl Hc Hcfg Hres) in Hsv. congruence.
Qed.

(** C3, at the failing input.  For a profile whose scoped configuration
    has no [region], [session_vars] returns a mapping whose
    [AWS_DEFAULT_REGION] and [AWS_REGION] entries are [None], not strings;
    in export mode the program then prints [export AWS_REGION=None;]. *)
Theorem session_vars_region_None :
  (session_vars 0
     (state_with_session example_environ (example_session None (Some "dev")))).1 =
    Ret [("AWS_DEFAULT_REGION", VNone); ("AWS_REGION", VNone);
         ("AWS_ACCESS_KEY_ID", VStr "AKIAEXAMPLE");
         ("AWS_SECRET_ACCESS_KEY", VStr "secret");
         ("AWS_SESSION_TOKEN", VStr "token")] /\
  ~ all_values_strings
      [("AWS_DEFAULT_REGION", VNone); ("AWS_REGION", VNone);
       ("AWS_ACCESS_KEY_ID", VStr "AKIAEXAMPLE");
       ("AWS_SECRET_ACCESS_KEY", VStr "secret");
       ("AWS_SESSION_TOKEN", VStr "token")] /\
  printed (log (main (no_region_host true) (initial example_environ)).2) =
    ["unset AWS_DEFAULT_PROFILE;"; "unset AWS_PROFILE;";
     "export AWS_DEFAULT_REGION=None;"; "export AWS_REGION=None;";
     "export AWS_ACCESS_KEY_ID=AKIAEXAMPLE;";
     "export AWS_SECRET_ACCESS_KEY=secret;";
     "export AWS_SESSION_TOKEN=token;"].
Proof.
  split; [vm_compute; reflexivity|]. split; [|vm_compute; reflexivity].
  intros H. apply Forall_cons_1 in H as [H _]. discriminate H.
Qed.

(** X4. What holds of every mapping [session_vars] returns: it has exactly the keys
    [AWS_DEFAULT_REGION], [AWS_REGION], [AWS_ACCESS_KEY_ID] and
    [AWS_SECRET_ACCESS_KEY], plus at most one token variable.  The access
    key, the secret key and the token are strings.  The two region entries
    hold [config.get('region')]: a string when the scoped configuration has
    a region, [None] otherwise. *)
Theorem session_vars_mapping (l : nat) (st st' : State) (vars : pydict) :
  session_vars l st = (Ret vars, st') ->
  (keys vars = base_keys \/
   keys vars = (base_keys ++ ["AWS_SECURITY_TOKEN"])%list \/
   keys vars = (base_keys ++ ["AWS_SESSION_TOKEN"])%list) /\
  (forall k v, dict_get vars k = Some v ->
     k <> "AWS_DEFAULT_REGION" -> k <> "AWS_REGION" -> exists s, v = VStr s) /\
  (exists s config,
     sessions st !! l = Some s /\ scoped_config s = Ret config /\
     dict_get vars "AWS_DEFAULT_REGION" = Some (config_get config "region") /\
     dict_get vars "AWS_REGION" = Some (config_get config "region") /\
     (forall r, config !! "region" = Some r -> config_get config "region" = VStr r) /\
     (config !! "region" = None -> config_get config "region" = VNone)).
Proof.
  intros Hsv.
  destruct (session_vars_derived _ _ _ _ Hsv)
    as (s & ps & config & creds & Hl & _ & Hcfg & _ & ->).
  split; [|split].
  - rewrite derived_vars_keys. unfold token_var.
    destruct (truthy (token creds)); [destruct (decide _)|]; auto.
  - unfold derived_vars, token_var, truthy.
    destruct (token creds) as [t|]; [case_bool_decide|];
      [destruct (decide _)| |]; cbn; intros k v;
      repeat (case_decide; [intros; simplify_eq; try done; by eexists|]);
      discriminate.
  - exists s, config. split; [done|]. split; [done|].
    unfold config_get.
    split; [|split; [|split]].
    + unfold derived_vars. by destruct (truthy (token creds)).
    + unfold derived_vars. by destruct (truthy (token creds)).
    + by intros r ->.
    + by intros ->.
Qed.

Lemma session_vars_mapping_witness :
  keys example_vars = base_keys \/
  keys example_vars = (base_keys ++ ["AWS_SECURITY_TOKEN"])%list \/
  keys example_vars = (base_keys ++ ["AWS_SESSION_TOKEN"])%list.
Proof.
  refine (proj1 (session_vars_mapping 0
    (state_with_session example_environ
       (example_session (Some "eu-west-1") (Some "dev")))
    (session_vars 0
       (state_with_session example_environ
          (example_session (Some "eu-west-1") (Some "dev")))).2
    example_vars _)).
  vm_compute. reflexivity.
Defined.

(** C10. When the resolved credentials carry a token (a non-empty
    string), [session_vars] stores it under [AWS_SECURITY_TOKEN] if the
    environment variable [AWS_TOKEN_TYPE] is the string [security], and
    under [AWS_SESSION_TOKEN] otherwise, and the other token variable is
    absent.  When they carry no token ([None], or the empty string, which
    Python also takes as false), the mapping has neither variable. *)
Theorem session_vars_token (l : nat) (s : Session) (st : State) ps config creds :
  sessions st !! l = Some s ->
  components s !! "credential_provider" = Some (CredentialResolver ps) ->
  scoped_config s = Ret config ->
  resolve s ps = Ret (Some creds) ->
  exists vars st',
    session_vars l st = (Ret vars, st') /\
    (forall t, token creds = Some t -> t <> EmptyString ->
       (environ st !! "AWS_TOKEN_TYPE" = Some "security" ->
          dict_get vars "AWS_SECURITY_TOKEN" = Some (VStr t) /\
          dict_get vars "AWS_SESSION_TOKEN" = None) /\
       (environ st !! "AWS_TOKEN_TYPE" <> Some "security" ->
          dict_get vars "AWS_SESSION_TOKEN" = Some (VStr t) /\
          dict_get vars "AWS_SECURITY_TOKEN" = None)) /\
    (token creds = None \/ token creds = Some EmptyString ->
       dict_get vars "AWS_SECURITY_TOKEN" = None /\
       dict_get vars "AWS_SESSION_TOKEN" = None).
Proof.
  intros Hl Hc Hcfg Hres.
  rewrite (session_vars_returns _ _ _ _ _ _ Hl Hc Hcfg Hres).
  eexists _, _. split; [reflexivity|].
  unfold derived_vars, token_var, truthy. split.
  - intros t -> Ht. rewrite bool_decide_eq_true_2 by exact Ht.
    split; intros Htype.
    + rewrite decide_True by exact Htype. by split.
    + rewrite decide_False by exact Htype. by split.
  - intros [->| ->]; by split.
Qed.

Lemma session_vars_token_witness :
  exists vars st',
    session_vars 0
      (state_with_session (<["AWS_TOKEN_TYPE" := "security"]> example_environ)
         (example_session None (Some "dev"))) = (Ret vars, st') /\
    dict_get vars "AWS_SECURITY_TOKEN" = Some (VStr "token") /\
    dict_get vars "AWS_SESSION_TOKEN" = None.
Proof.
  destruct (session_vars_token 0 (example_session None (Some "dev"))
              (state_with_session (<["AWS_TOKEN_TYPE" := "security"]> example_environ)
                 (example_session None (Some "dev")))
              example_chain ∅ example_credentials
              eq_refl eq_refl eq_refl eq_refl)
    as (vars & st' & Hsv & Htok & _).
  exists vars, st'. split; [exact Hsv|].
  apply (Htok "token"); [reflexivity|discriminate|reflexivity].
Defined.

(** ** The effect of [configure_cache] *)

(** C5. When [configure_cache session] returns, the assume-role provider
    of the session's credential chain holds a [FixedJSONFileCache], and
    nothing else has changed: the other providers of the chain, the other
    components, the other attributes of the session, the other sessions,
    the dictionaries and the environment are as before. *)
Theorem configure_cache_effect (l : nat) (st st' : State) :
  configure_cache l st = (Ret tt, st') ->
  exists s s' ps ps' i,
    sessions st !! l = Some s /\
    sessions st' !! l = Some s' /\
    components s !! "credential_provider" = Some (CredentialResolver ps) /\
    components s' !! "credential_provider" = Some (CredentialResolver ps') /\
    provider_offset ps "assume-role" = Some i /\
    get_provider ps' "assume-role" =
      Ret (mkProvider "assume-role" (CacheFixedJSONFile CACHE_DIR)) /\
    length ps' = length ps /\
    (forall j, j <> i -> ps' !! j = ps !! j) /\
    (forall name, name <> "credential_provider" ->
       components s' !! name = components s !! name) /\
    profile s' = profile s /\
    scoped_config s' = scoped_config s /\
    resolve s' = resolve s /\
    (forall l', l' <> l -> sessions st' !! l' = sessions st !! l') /\
    heap st' = heap st /\
    environ st' = environ st.
Proof.
  intros Hcc.
  destruct (configure_cache_inv _ _ _ _ Hcc) as (s & ps & i & Hl & Hc & Hi).
  rewrite (configure_cache_returns _ _ _ _ _ Hl Hc Hi) in Hcc.
  injection Hcc as <-.
  exists s, (patch_session s ps i), ps, (patched ps i), i. cbn.
  repeat split; try done.
  - apply lookup_insert_eq.
  - apply lookup_insert_eq.
  - by apply get_provider_patched.
  - unfold patched. apply length_alter.
  - intros j Hj. unfold patched. by apply list_lookup_alter_ne.
  - intros name Hname. by apply lookup_insert_ne.
  - intros l' Hl'. by apply lookup_insert_ne.
Qed.

Lemma configure_cache_effect_witness :
  exists s s' ps ps' i,
    sessions (state_with_session example_environ (example_session None None)) !! 0
      = Some s /\
    sessions (configure_cache 0
                (state_with_session example_environ (example_session None None))).2
      !! 0 = Some s' /\
    components s !! "credential_provider" = Some (CredentialResolver ps) /\
    components s' !! "credential_provider" = Some (CredentialResolver ps') /\
    provider_offset ps "assume-role" = Some i /\
    get_provider ps' "assume-role" =
      Ret (mkProvider "assume-role" (CacheFixedJSONFile CACHE_DIR)) /\
    length ps' = length ps /\
    (forall j, j <> i -> ps' !! j = ps !! j) /\
    (forall name, name <> "credential_provider" ->
       components s' !! name = components s !! name) /\
    profile s' = profile s /\
    scoped_config s' = scoped_config s /\
    resolve s' = resolve s /\
    (forall l', l' <> 0 ->
       sessions (configure_cache 0
                   (state_with_session example_environ (example_session None None))).2
         !! l' =
       sessions (state_with_session example_environ (example_session None None)) !! l') /\
    heap (configure_cache 0
            (state_with_session example_environ (example_session None None))).2 =
      heap (state_with_session example_environ (example_session None None)) /\
    environ (configure_cache 0
               (state_with_session example_environ (example_session None None))).2 =
      environ (state_with_session example_environ (example_session None None)).
Proof.
  apply (configure_cache_effect 0
           (state_with_session example_environ (example_session None None))).
  vm_compute. reflexivity.
Defined.

Lemma unset_profile_leaves_env_witness :
  (unset_profile 0 (mkState example_environ (<[0 := VStr <$> example_environ]> ∅) ∅ [])).1
    = Ret tt /\
  heap (unset_profile 0
          (mkState example_environ (<[0 := VStr <$> example_environ]> ∅) ∅ [])).2 !! 0
    = Some (VStr <$> example_environ) /\
  environ (unset_profile 0
             (mkState example_environ (<[0 := VStr <$> example_environ]> ∅) ∅ [])).2
    = example_environ.
Proof.
  apply (unset_profile_leaves_env 0 (VStr <$> example_environ)
           (mkState example_environ (<[0 := VStr <$> example_environ]> ∅) ∅ [])).
  reflexivity.
Defined.

(** ** [FixedJSONFileCache.__setitem__] *)

Lemma mapM_Raise {A B} (f : A -> res B) (l : list A) e :
  mapM f l = Raise e -> exists x, x ∈ l /\ f x = Raise e.
Proof.
  induction l as [|x l IH]; cbn; [discriminate|].
  destruct (f x) as [y|e'] eqn:Hx.
  - destruct (mapM f l) as [ys|e'']; [discriminate|].
    intros [= ->]. destruct IH as (x' & Hin & Hx'); [done|].
    exists x'. split; [by apply elem_of_cons; right|done].
  - intros [= ->]. exists x. split; [apply elem_of_cons; by left|done].
Qed.

Lemma mapM_Ret_ext {A B} (f g : A -> res B) (l : list A) ys :
  Forall (fun x => forall y, f x = Ret y -> g x = Ret y) l ->
  mapM f l = Ret ys -> mapM g l = Ret ys.
Proof.
  intros Hall. revert ys. induction Hall as [|x l Hx _ IH]; intros ys; cbn; [done|].
  destruct (f x) as [y|]; [|discriminate]. rewrite (Hx y eq_refl).
  destruct (mapM f l) as [ys'|]; [|discriminate].
  by rewrite (IH ys' eq_refl).
Qed.

(** With [json_encoder] as default, [json.dumps] raises nothing but
    [TypeError] and [ValueError]. *)
Lemma json_dumps_raises (v : pyval) e :
  json_dumps (with_default json_encoder) v = Raise e ->
  e = TypeError \/ e = ValueError.
Proof.
  revert e. induction v using pyval_ind; intros e; cbn; try discriminate.
  - destruct (mapM _ items) as [js|e'] eqn:Hm; [discriminate|]. intros [= ->].
    destruct (mapM_Raise _ _ _ Hm) as (x & Hin & Hx).
    rewrite Forall_forall in H. by apply (H x Hin).
  - destruct (mapM _ items) as [js|e'] eqn:Hm; [discriminate|]. intros [= ->].
    destruct (mapM_Raise _ _ _ Hm) as (x & Hin & Hx).
    rewrite Forall_forall in H. by apply (H x Hin).
  - destruct (mapM _ items) as [js|e'] eqn:Hm; [discriminate|]. intros [= ->].
    destruct (mapM_Raise _ _ _ Hm) as ([k x] & Hin & Hx).
    rewrite Forall_forall in H. specialize (H _ Hin). cbn in H.
    destruct (json_key k); [|injection Hx as <-; by left].
    destruct (json_dumps _ x) as [j|e'] eqn:Hj; [discriminate|].
    injection Hx as ->. by apply H.
  - intros [= <-]. by right.
Qed.

(** Every value [json.dumps(value)] accepts is accepted, with the same
    result, when [json_encoder] is the default. *)
Lemma json_dumps_extends (v : pyval) (j : json) :
  json_dumps no_default v = Ret j ->
  json_dumps (with_default json_encoder) v = Ret j.
Proof.
  revert j. induction v using pyval_ind; intros j; cbn; try done.
  - destruct (mapM (json_dumps no_default) items) as [js|] eqn:Hm; [|discriminate].
    by rewrite (mapM_Ret_ext _ _ _ _ H Hm).
  - destruct (mapM (json_dumps no_default) items) as [js|] eqn:Hm; [|discriminate].
    by rewrite (mapM_Ret_ext _ _ _ _ H Hm).
  - destruct (mapM _ items) as [js|] eqn:Hm; [|discriminate].
    erewrite mapM_Ret_ext; [done| |exact Hm].
    eapply Forall_impl; [exact H|]. intros [k x] Hx y. cbn in *.
    destruct (json_key k); [|done].
    destruct (json_dumps no_default x) as [j'|] eqn:Hj; [|discriminate].
    by rewrite (Hx j' eq_refl).
Qed.

(** A datetime is accepted only with [json_encoder]. *)
Lemma json_dumps_datetime (isoformat : string) :
  json_dumps (with_default json_encoder) (PDatetime isoformat) = Ret (JStr isoformat) /\
  json_dumps no_default (PDatetime isoformat) = Raise TypeError.
Proof. by split. Qed.

Section Setitem.

Variable FS : Type.
Variable isdir : string -> FS -> bool.
Variable makedirs : string -> FS -> res unit * FS.
Variable write_file : string -> json -> FS -> res unit * FS.

(** When the value cannot be serialized, [__setitem__] raises and the file
    system is as before: nothing is asked of the operating system. *)
Lemma setitem_unserializable working_dir cache_key value (fs : FS) e :
  json_dumps (with_default json_encoder) value = Raise e ->
  (setitem FS isdir makedirs write_file working_dir cache_key value fs).2 = fs /\
  ((setitem FS isdir makedirs write_file working_dir cache_key value fs).1 =
     Raise ValueError \/
   (setitem FS isdir makedirs write_file working_dir cache_key value fs).1 =
     Raise TypeError /\ percent_s value = Raise TypeError).
Proof.
  intros Hd. unfold setitem. rewrite Hd.
  destruct (json_dumps_raises _ _ Hd) as [-> | ->];
    (destruct (percent_s value) as [[]|e'] eqn:Hp; cbn; [by auto|]);
    (split; [done|]); right;
    destruct value as [| | | | | | |[|x [|y l]]| |]; cbn in Hp; by simplify_eq.
Qed.

(** X14. For a value that is not a tuple of two or more items, and an
    operating system whose calls never raise [ValueError], [__setitem__]
    raises [ValueError] exactly when
    [json.dumps(value, default=json_encoder)] raises: a [ValueError] from
    the cache always means the value, never the file system.  The empty
    tuple is among these values: it is written as [[]]. *)
Lemma setitem_ValueError_iff working_dir cache_key value (fs : FS) :
  (forall p fs', (makedirs p fs').1 <> Raise ValueError) ->
  (forall p c fs', (write_file p c fs').1 <> Raise ValueError) ->
  (forall x y l, value <> PTuple (x :: y :: l)) ->
  (setitem FS isdir makedirs write_file working_dir cache_key value fs).1 =
    Raise ValueError <->
  exists e, json_dumps (with_default json_encoder) value = Raise e.
Proof.
  intros Hmk Hwr Hnt. split.
  - unfold setitem.
    destruct (json_dumps (with_default json_encoder) value) as [j|e];
      [|by eexists].
    destruct (isdir working_dir fs); [intros H; by apply Hwr in H|].
    pose proof (Hmk working_dir fs) as Hm.
    destruct (makedirs working_dir fs) as [[[]|e] fs']; cbn in *.
    + intros H. by apply Hwr in H.
    + intros H. congruence.
  - intros [e Hd].
    destruct (setitem_unserializable working_dir cache_key value fs e Hd)
      as (_ & [H|[_ H]]); [exact H|].
    destruct value as [| | | | | | |[|x [|y l]]| |]; try discriminate H.
    + discriminate Hd.
    + by destruct (Hnt x y l).
Qed.

End Setitem.

(** C6, at the failing input.  For the tuple [(set(), 1)] the encoder
    raises [ValueError], and [__setitem__] then raises [TypeError], not
    [ValueError]: formatting the message with [%] takes the tuple as two
    arguments for one [%s].  The file system is unchanged. *)
Theorem setitem_tuple_raises_TypeError
    (FS : Type) (isdir : string -> FS -> bool)
    (makedirs : string -> FS -> res unit * FS)
    (write_file : string -> json -> FS -> res unit * FS)
    (working_dir cache_key : string) (fs : FS) :
  json_dumps (with_default json_encoder) (PTuple [PObject "set()"; PInt 1]) =
    Raise ValueError /\
  setitem FS isdir makedirs write_file working_dir cache_key
    (PTuple [PObject "set()"; PInt 1]) fs = (Raise TypeError, fs).
Proof. split; reflexivity. Qed.

(** A credentials document with a datetime is written to the cache file,
    and the cache directory is created. *)
Example setitem_writes_datetime :
  setitem MemFS mem_isdir mem_makedirs mem_write_file CACHE_DIR "dev--role"
    (PDict [(KStr "Expiration", PDatetime "2016-01-01T00:00:00+00:00")]) empty_fs =
  (Ret tt,
   mkMemFS [CACHE_DIR]
     (<["~/.aws/cli/cache/dev--role.json" :=
          JObject [(KStr "Expiration", JStr "2016-01-01T00:00:00+00:00")]]> ∅)).
Proof. reflexivity. Qed.

(** awscli's [JSONFileCache] refuses the same document. *)
Example JSONFileCache_refuses_datetime :
  JSONFileCache_setitem MemFS mem_isdir mem_makedirs mem_write_file CACHE_DIR
    "dev--role"
    (PDict [(KStr "Expiration", PDatetime "2016-01-01T00:00:00+00:00")]) empty_fs =
  (Raise ValueError, empty_fs).
Proof. reflexivity. Qed.

(** * Further properties *)

(** ** [os.environ] is never written *)

Lemma keeps_bind {A B} (m : M A) (k : A -> M B) :
  keeps_environ m -> (forall a, keeps_environ (k a)) -> keeps_environ (bind m k).
Proof.
  intros Hm Hk st. unfold bind. specialize (Hm st).
  destruct (m st) as [[a|e] st']; cbn in *; [|exact Hm].
  by rewrite Hk.
Qed.

Lemma keeps_for_each {A} (l : list A) (body : A -> M unit) :
  (forall a, keeps_environ (body a)) -> keeps_environ (for_each l body).
Proof.
  intros Hb. induction l as [|x l IH]; [done|].
  cbn. apply keeps_bind; [apply Hb|by intros _].
Qed.

Create HintDb keeps.

Ltac keeps :=
  repeat first
    [ solve [auto with keeps]
    | progress cbv zeta
    | apply keeps_bind; [|intros ?]
    | apply keeps_for_each; intros ?
    | match goal with |- keeps_environ (match ?x with _ => _ end) => destruct x end
    | by intros ? ].

Lemma keeps_unset_profile (env : nat) : keeps_environ (unset_profile env).
Proof. by intros st. Qed.

Lemma keeps_configure_cache (l : nat) : keeps_environ (configure_cache l).
Proof. unfold configure_cache, load_session. keeps. Qed.

#[local] Hint Resolve keeps_unset_profile keeps_configure_cache : keeps.

Lemma keeps_session_vars (l : nat) : keeps_environ (session_vars l).
Proof.
  unfold session_vars, get_scoped_config, get_credentials, load_session, os_getenv.
  keeps.
Qed.

#[local] Hint Resolve keeps_session_vars : keeps.

(** X1. [main] never writes [os.environ]: on every run, whether it
    returns, exits or is stopped by an exception, the environment of the
    wrapper itself is what it was. *)
Theorem main_keeps_environ (host : Host) (st : State) :
  environ (main host st).2 = environ st.
Proof.
  revert st. change (keeps_environ (main host)).
  unfold main, parse_args, new_session, print, os_environ_copy, dict_update,
    subprocess_call, sys_exit.
  keeps.
Qed.

(** ** Runs that fail before the branch *)

Lemma no_credentials_derive (export : bool) :
  derive (no_credentials_host export) (initial example_environ) =
    (Raise AttributeError,
     (derive (no_credentials_host export) (initial example_environ)).2).
Proof. destruct export; vm_compute; reflexivity. Defined.

Lemma main_aborted_silent_witness :
  (main (no_credentials_host true) (initial example_environ)).1 =
    Raise AttributeError /\
  (exists evs,
     log (main (no_credentials_host true) (initial example_environ)).2 =
       EvParseArgs :: EvSession (Some "dev") :: evs) /\
  printed (log (main (no_credentials_host true) (initial example_environ)).2) = [] /\
  calls (log (main (no_credentials_host true) (initial example_environ)).2) = [].
Proof.
  exact (main_aborted_silent (no_credentials_host true) example_environ
           (example_args true) AttributeError _ eq_refl
           (no_credentials_derive true)).
Defined.

Lemma session_vars_no_credentials (l : nat) (s : Session) (st : State) ps config :
  sessions st !! l = Some s ->
  components s !! "credential_provider" = Some (CredentialResolver ps) ->
  scoped_config s = Ret config ->
  resolve s ps = Ret None ->
  (session_vars l st).1 = Raise AttributeError.
Proof.
  intros Hl Hc Hcfg Hres.
  unfold session_vars, get_scoped_config, get_credentials, load_session,
    get_component. step.
  rewrite Hl. cbn. rewrite Hcfg. cbn. rewrite Hl. cbn. rewrite Hc. cbn.
  by rewrite Hres.
Qed.

Lemma derive_without_credentials (host : Host) (st : State) args ps i config :
  argparse (tail (sys_argv host)) = Ret args ->
  components (botocore_session host (ns_profile args)) !! "credential_provider" =
    Some (CredentialResolver ps) ->
  provider_offset ps "assume-role" = Some i ->
  scoped_config (botocore_session host (ns_profile args)) = Ret config ->
  resolve (botocore_session host (ns_profile args)) (patched ps i) = Ret None ->
  (derive host st).1 = Raise AttributeError.
Proof.
  intros Hargs Hc Hi Hcfg Hres.
  unfold derive, parse_args. step. rewrite Hargs. cbn.
  set (l := fresh (dom (sessions st))).
  set (s := mkSession _ _ _ _).
  set (st2 := mkState _ _ _ _).
  rewrite (configure_cache_returns l s st2 ps i);
    [|apply lookup_insert_eq|exact Hc|exact Hi].
  set (st3 := mkState _ _ _ _).
  pose proof (session_vars_no_credentials l (patch_session s ps i) st3
                (patched ps i) config) as Hsv.
  destruct (session_vars l st3) as [r st4]. cbn in Hsv.
  rewrite Hsv; [done|apply lookup_insert_eq|apply lookup_insert_eq|exact Hcfg|exact Hres].
Qed.

(** X3. When the provider chain finds no credentials ([get_credentials()]
    returns [None]), [main] stops with [AttributeError] in either mode: it
    prints nothing and starts no command. *)
Theorem main_without_credentials (host : Host) (env : gmap string string)
    args ps i config :
  argparse (tail (sys_argv host)) = Ret args ->
  components (botocore_session host (ns_profile args)) !! "credential_provider" =
    Some (CredentialResolver ps) ->
  provider_offset ps "assume-role" = Some i ->
  scoped_config (botocore_session host (ns_profile args)) = Ret config ->
  resolve (botocore_session host (ns_profile args)) (patched ps i) = Ret None ->
  (main host (initial env)).1 = Raise AttributeError /\
  printed (log (main host (initial env)).2) = [] /\
  calls (log (main host (initial env)).2) = [].
Proof.
  intros Hargs Hc Hi Hcfg Hres.
  pose proof (derive_without_credentials host (initial env) _ _ _ _
                Hargs Hc Hi Hcfg Hres) as Hd.
  destruct (derive host (initial env)) as [r st1] eqn:Hder. cbn in Hd. subst r.
  rewrite (main_aborted _ _ _ _ Hder). cbn.
  destruct (derive_trace host (initial env)) as (p & ps' & evs & Hlog & Hpre & _).
  rewrite Hder in Hlog. cbn in Hlog. rewrite Hlog.
  destruct (derive_prefix_quiet _ _ _ Hpre) as (Hp & Hcl & _). by repeat split.
Qed.

Lemma main_without_credentials_witness :
  (main (no_credentials_host false) (initial example_environ)).1 =
    Raise AttributeError /\
  printed (log (main (no_credentials_host false) (initial example_environ)).2) = [] /\
  calls (log (main (no_credentials_host false) (initial example_environ)).2) = [].
Proof.
  exact (main_without_credentials (no_credentials_host false) example_environ
           (example_args false) example_chain 1 ∅
           eq_refl eq_refl eq_refl eq_refl eq_refl).
Defined.

(** ** The environment of the child, continued *)

Lemma derived_vars_None config creds token_type k :
  dict_get (derived_vars config creds token_type) k = Some VNone ->
  (k = "AWS_DEFAULT_REGION" \/ k = "AWS_REGION") /\ config !! "region" = None.
Proof.
  unfold derived_vars, token_var, truthy, base_vars, config_get.
  destruct (config !! "region") as [r|];
    (destruct (token creds) as [t|]; [case_bool_decide|];
     [destruct (decide _)| |]); cbn;
    repeat (case_decide; [intros; simplify_eq; by auto|]);
    discriminate.
Qed.

Lemma child_env_lookup config creds token_type (env : gmap string string) k :
  child_env env (derived_vars config creds token_type) !! k =
    match dict_get (derived_vars config creds token_type) k with
    | Some v => Some v
    | None => VStr <$> env !! k
    end.
Proof.
  unfold child_env.
  destruct (dict_get _ k) as [v|] eqn:Hk.
  - apply update_with_lookup_Some; [apply derived_vars_NoDup|exact Hk].
  - rewrite update_with_lookup_None by exact Hk. apply lookup_fmap.
Qed.

(** X5. In the environment handed to [subprocess.call], the only entries
    that can be [None] instead of a string are [AWS_DEFAULT_REGION] and
    [AWS_REGION], and only when the scoped configuration of the profile
    has no [region]; for a profile with a region every value is a
    string. *)
Theorem main_child_environment_strings (host : Host) (env : gmap string string)
    args vars st1 :
  derive host (initial env) = (Ret (args, vars), st1) ->
  ns_export args = false ->
  exists d config,
    calls (log (main host (initial env)).2) = [(ns_command args, d)] /\
    scoped_config (botocore_session host (ns_profile args)) = Ret config /\
    (forall k, d !! k = Some VNone ->
       (k = "AWS_DEFAULT_REGION" \/ k = "AWS_REGION") /\ config !! "region" = None) /\
    (is_Some (config !! "region") ->
       forall k v, d !! k = Some v -> exists s, v = VStr s).
Proof.
  intros Hd He.
  destruct (main_run_outputs _ _ _ _ _ Hd) as [_ Hc].
  destruct (derive_inv _ _ _ _ _ Hd)
    as (ps & i & config & creds & _ & _ & _ & Hcfg & _ & -> & _).
  exists (child_env env (derived_vars config creds (env !! "AWS_TOKEN_TYPE"))), config.
  rewrite Hc. unfold outputs. rewrite He. cbn [calls omap].
  split; [reflexivity|]. split; [exact Hcfg|].
  assert (Hnone : forall k,
    child_env env (derived_vars config creds (env !! "AWS_TOKEN_TYPE")) !! k =
      Some VNone ->
    (k = "AWS_DEFAULT_REGION" \/ k = "AWS_REGION") /\ config !! "region" = None).
  { intros k. rewrite child_env_lookup.
    destruct (dict_get _ k) as [v|] eqn:Hk.
    - intros [= ->]. by apply derived_vars_None in Hk.
    - destruct (env !! k); discriminate. }
  split; [exact Hnone|].
  intros [r Hr] k [|s] Hk; [|by exists s].
  apply Hnone in Hk as [_ Hk]. congruence.
Qed.

Lemma main_child_environment_strings_witness :
  exists d config,
    calls (log (main (example_host false 0) (initial example_environ)).2) =
      [(["ls"; "-l"], d)] /\
    scoped_config (example_session (Some "eu-west-1") (Some "dev")) = Ret config /\
    (forall k, d !! k = Some VNone ->
       (k = "AWS_DEFAULT_REGION" \/ k = "AWS_REGION") /\ config !! "region" = None) /\
    (is_Some (config !! "region") ->
       forall k v, d !! k = Some v -> exists s, v = VStr s).
Proof.
  exact (main_child_environment_strings (example_host false 0) example_environ
           (example_args false) example_vars _ (example_derive false 0) eq_refl).
Defined.

(** X6. The child inherits the token variable that [session_vars] does not
    write: with [AWS_TOKEN_TYPE=security] the parent's [AWS_SESSION_TOKEN]
    is passed on as it is, otherwise the parent's [AWS_SECURITY_TOKEN] is;
    and when the credentials carry no token (the mapping has the four base
    keys only), both are passed on.  Nothing removes a token from the
    child's environment. *)
Theorem main_child_inherits_token (host : Host) (env : gmap string string)
    args vars st1 :
  derive host (initial env) = (Ret (args, vars), st1) ->
  ns_export args = false ->
  exists d,
    calls (log (main host (initial env)).2) = [(ns_command args, d)] /\
    (env !! "AWS_TOKEN_TYPE" = Some "security" ->
       d !! "AWS_SESSION_TOKEN" = VStr <$> env !! "AWS_SESSION_TOKEN") /\
    (env !! "AWS_TOKEN_TYPE" <> Some "security" ->
       d !! "AWS_SECURITY_TOKEN" = VStr <$> env !! "AWS_SECURITY_TOKEN") /\
    (keys vars = base_keys ->
       d !! "AWS_SESSION_TOKEN" = VStr <$> env !! "AWS_SESSION_TOKEN" /\
       d !! "AWS_SECURITY_TOKEN" = VStr <$> env !! "AWS_SECURITY_TOKEN").
Proof.
  intros Hd He.
  destruct (main_run_outputs _ _ _ _ _ Hd) as [_ Hc].
  destruct (derive_inv _ _ _ _ _ Hd)
    as (ps & i & config & creds & _ & _ & _ & _ & _ & -> & _).
  exists (child_env env (derived_vars config creds (env !! "AWS_TOKEN_TYPE"))).
  rewrite Hc. unfold outputs. rewrite He. cbn [calls omap].
  split; [reflexivity|]. rewrite !child_env_lookup.
  cbn [initial environ].
  unfold derived_vars, token_var, base_vars.
  split; [|split].
  - intros Ht. rewrite decide_True by exact Ht.
    by destruct (truthy (token creds)).
  - intros Ht. rewrite decide_False by exact Ht.
    by destruct (truthy (token creds)).
  - destruct (truthy (token creds)); [|by split].
    destruct (decide _); discriminate.
Qed.

Lemma main_child_inherits_token_witness :
  exists d,
    calls (log (main (example_host false 0)
                  (initial (<["AWS_SECURITY_TOKEN" := "stale"]> example_environ))).2) =
      [(["ls"; "-l"], d)] /\
    d !! "AWS_SECURITY_TOKEN" = Some (VStr "stale").
Proof.
  destruct (main_child_inherits_token (example_host false 0)
              (<["AWS_SECURITY_TOKEN" := "stale"]> example_environ)
              (example_args false) example_vars
              (derive (example_host false 0)
                 (initial (<["AWS_SECURITY_TOKEN" := "stale"]> example_environ))).2)
    as (d & Hc & _ & Hsec & _).
  - vm_compute. reflexivity.
  - reflexivity.
  - exists d. split; [exact Hc|]. apply Hsec. discriminate.
Defined.

(** ** The exit status, continued *)

Lemma WEXITSTATUS_range (returncode : Z) :
  (0 <= WEXITSTATUS returncode <= 255)%Z.
Proof.
  unfold WEXITSTATUS. change 255%Z with (Z.ones 8).
  rewrite Z.land_ones by lia.
  pose proof (Z.mod_pos_bound (Z.shiftr returncode 8) (2 ^ 8)) as H.
  change (2 ^ 8)%Z with 256%Z in *. change (Z.ones 8) with 255%Z. lia.
Qed.

Lemma WEXITSTATUS_negative (returncode : Z) :
  (-256 <= returncode < 0)%Z -> WEXITSTATUS returncode = 255%Z.
Proof.
  intros Hr. unfold WEXITSTATUS. rewrite Z.shiftr_div_pow2 by lia.
  change (2 ^ 8)%Z with 256%Z.
  assert (returncode / 256 = -1)%Z as ->; [|reflexivity].
  symmetry. apply (Z.div_unique returncode 256 (-1) (returncode + 256)); lia.
Qed.

(** X7. The wrapper's exit status is always between 0 and 255, and it is
    255 for every negative return code down to -256, the codes
    [subprocess.call] returns for a child killed by a signal. *)
Theorem main_exit_status_signal (host : Host) (env : gmap string string)
    args vars st1 (returncode : Z) :
  derive host (initial env) = (Ret (args, vars), st1) ->
  ns_export args = false ->
  child host (ns_command args) (child_env env vars) = Ret returncode ->
  (0 <= exit_status (main host (initial env)).1 <= 255)%Z /\
  ((-256 <= returncode < 0)%Z -> exit_status (main host (initial env)).1 = 255%Z).
Proof.
  intros Hd He Hchild.
  destruct (main_run _ _ _ _ _ Hd) as (ps & _ & _ & Hres).
  change (environ (initial env)) with env in Hres.
  rewrite He, Hchild in Hres. rewrite Hres. cbn [exit_with exit_status].
  split; [apply WEXITSTATUS_range|apply WEXITSTATUS_negative].
Qed.

Lemma main_exit_status_signal_witness :
  (0 <= exit_status (main (example_host false (-9)) (initial example_environ)).1
     <= 255)%Z /\
  ((-256 <= -9 < 0)%Z ->
   exit_status (main (example_host false (-9)) (initial example_environ)).1 = 255%Z).
Proof.
  exact (main_exit_status_signal (example_host false (-9)) example_environ
           (example_args false) example_vars _ (-9) (example_derive false (-9))
           eq_refl eq_refl).
Defined.

(** ** [configure_cache], continued *)

Lemma provider_offset_None (ps : list Provider) (name : string) :
  provider_offset ps name = None <-> forall p, p ∈ ps -> METHOD p <> name.
Proof.
  induction ps as [|p ps IH]; cbn.
  - split; [|done]. intros _ p Hp. by apply elem_of_nil in Hp.
  - destruct (decide (METHOD p = name)) as [Hm|Hm].
    + split; [discriminate|]. intros H. destruct (H p); [apply elem_of_cons; by left|done].
    + destruct (provider_offset ps name) as [j|]; cbn.
      * split; [discriminate|]. intros H.
        assert (Hn : Some j = None); [|discriminate Hn].
        apply IH. intros q Hq. apply H, elem_of_cons. by right.
      * split; [|done]. intros _ q [->|Hq]%elem_of_cons; [done|].
        by apply IH.
Qed.

(** X8. [configure_cache] returns exactly when asking the session for its
    credential provider yields a resolver whose chain contains a provider
    named [assume-role].  Otherwise it raises, and then nothing has been
    changed or logged: the store is as it was.  When building the
    credential provider raises ([ProfileNotFound] for a profile the
    configuration does not have), that exception is the outcome; a session
    without the component gives [ValueError], a component that is no
    resolver [AttributeError], and a chain without [assume-role]
    [UnknownCredentialError]. *)
Theorem configure_cache_returns_iff (l : nat) (s : Session) (st : State) :
  sessions st !! l = Some s ->
  ((configure_cache l st).1 = Ret tt <->
   exists ps p,
     components s !! "credential_provider" = Some (CredentialResolver ps) /\
     p ∈ ps /\ METHOD p = "assume-role") /\
  ((configure_cache l st).1 <> Ret tt -> (configure_cache l st).2 = st) /\
  (forall e, components s !! "credential_provider" = Some (Deferred e) ->
     (configure_cache l st).1 = Raise e) /\
  (components s !! "credential_provider" = None ->
     (configure_cache l st).1 = Raise ValueError) /\
  (forall tag, components s !! "credential_provider" = Some (OtherComponent tag) ->
     (configure_cache l st).1 = Raise AttributeError) /\
  (forall ps,
     components s !! "credential_provider" = Some (CredentialResolver ps) ->
     (forall p, p ∈ ps -> METHOD p <> "assume-role") ->
     (configure_cache l st).1 = Raise UnknownCredentialError).
Proof.
  intros Hl. split; [|split; [|split; [|split; [|split]]]].
  - split.
    + intros Hr.
      destruct (configure_cache l st) as [r st'] eqn:Hcc. cbn in Hr. subst r.
      destruct (configure_cache_inv _ _ _ _ Hcc) as (s' & ps & i & Hl' & Hc & Hi).
      assert (s' = s) as -> by congruence.
      destruct (provider_offset_Some _ _ _ Hi) as (p & Hp & Hm).
      exists ps, p. split; [exact Hc|]. split; [|exact Hm].
      apply list_elem_of_lookup. by exists i.
    + intros (ps & p & Hc & Hp & Hm).
      destruct (provider_offset ps "assume-role") as [i|] eqn:Hi.
      * by rewrite (configure_cache_returns _ _ _ _ _ Hl Hc Hi).
      * pose proof (proj1 (provider_offset_None _ _) Hi) as Hn.
        by destruct (Hn p Hp).
  - intros Hr.
    destruct (configure_cache_cases l st) as [(s' & ps & i & Hl' & Hc & Hi)|[e He]].
    + rewrite (configure_cache_returns _ _ _ _ _ Hl' Hc Hi) in Hr. by destruct Hr.
    + by rewrite He.
  - intros e Hc. unfold configure_cache, load_session, get_component. step.
    rewrite Hl. cbn. by rewrite Hc.
  - intros Hc. unfold configure_cache, load_session, get_component. step.
    rewrite Hl. cbn. by rewrite Hc.
  - intros tag Hc. unfold configure_cache, load_session, get_component. step.
    rewrite Hl. cbn. by rewrite Hc.
  - intros ps Hc Hn. unfold configure_cache, load_session, get_component. step.
    rewrite Hl. cbn. rewrite Hc. cbn.
    by rewrite (proj2 (provider_offset_None ps "assume-role") Hn).
Qed.

Lemma configure_cache_returns_iff_witness :
  (configure_cache 0
     (state_with_session example_environ (example_session None None))).1 = Ret tt /\
  (configure_cache 0
     (state_with_session example_environ
        (missing_profile_session (Some "nosuch")))).1 = Raise ProfileNotFound.
Proof.
  split.
  - apply (proj1 (configure_cache_returns_iff 0 (example_session None None)
                    (state_with_session example_environ (example_session None None))
                    eq_refl)).
    exists example_chain, (mkProvider "assume-role" CacheDict).
    split; [reflexivity|]. split; [|reflexivity].
    apply elem_of_cons. right. apply elem_of_cons. by left.
  - exact (proj1 (proj2 (proj2
             (configure_cache_returns_iff 0 (missing_profile_session (Some "nosuch"))
                (state_with_session example_environ
                   (missing_profile_session (Some "nosuch")))
                eq_refl))) ProfileNotFound eq_refl).
Defined.

Lemma patched_twice (ps : list Provider) (i : nat) :
  patched (patched ps i) i = patched ps i.
Proof.
  unfold patched. revert i. induction ps as [|p ps IH]; intros [|i]; cbn; try done.
  by rewrite IH.
Qed.

(** X9. Injecting the cache twice is the same as injecting it once: a
    second [configure_cache] on the same session returns and leaves the
    sessions, the dictionaries and the environment as the first call left
    them. *)
Theorem configure_cache_idempotent (l : nat) (st st1 : State) :
  configure_cache l st = (Ret tt, st1) ->
  (configure_cache l st1).1 = Ret tt /\
  sessions (configure_cache l st1).2 = sessions st1 /\
  heap (configure_cache l st1).2 = heap st1 /\
  environ (configure_cache l st1).2 = environ st1.
Proof.
  intros Hcc.
  destruct (configure_cache_inv _ _ _ _ Hcc) as (s & ps & i & Hl & Hc & Hi).
  rewrite (configure_cache_returns _ _ _ _ _ Hl Hc Hi) in Hcc.
  injection Hcc as <-.
  rewrite (configure_cache_returns l (patch_session s ps i) _ (patched ps i) i);
    [|apply lookup_insert_eq|apply lookup_insert_eq
     |unfold patched; by rewrite provider_offset_alter].
  cbn. repeat split.
  rewrite insert_insert_eq. f_equal.
  unfold patch_session, set_components. cbn.
  by rewrite insert_insert_eq, patched_twice.
Qed.

Lemma configure_cache_idempotent_witness :
  (configure_cache 0
     (configure_cache 0
        (state_with_session example_environ (example_session None None))).2).1 =
    Ret tt /\
  sessions
    (configure_cache 0
       (configure_cache 0
          (state_with_session example_environ (example_session None None))).2).2 =
  sessions
    (configure_cache 0
       (state_with_session example_environ (example_session None None))).2.
Proof.
  destruct (configure_cache_idempotent 0
              (state_with_session example_environ (example_session None None))
              (configure_cache 0
                 (state_with_session example_environ (example_session None None))).2)
    as (Hr & Hs & _).
  - vm_compute. reflexivity.
  - split; [exact Hr|exact Hs].
Defined.

(** ** [unset_profile], continued *)

(** X10. What [unset_profile] does build: one new dictionary, a copy of
    [os.environ] without [AWS_DEFAULT_PROFILE] and [AWS_PROFILE] and with
    every other variable as it is.  Every dictionary that existed before,
    whichever was passed, is unchanged. *)
Theorem unset_profile_copy (env : nat) (st : State) :
  exists copy,
    heap st !! fresh (dom (heap st)) = None /\
    heap (unset_profile env st).2 !! fresh (dom (heap st)) = Some copy /\
    copy !! "AWS_DEFAULT_PROFILE" = None /\
    copy !! "AWS_PROFILE" = None /\
    (forall k, k <> "AWS_DEFAULT_PROFILE" -> k <> "AWS_PROFILE" ->
       copy !! k = VStr <$> environ st !! k) /\
    (forall l, l <> fresh (dom (heap st)) ->
       heap (unset_profile env st).2 !! l = heap st !! l).
Proof.
  exists (delete "AWS_PROFILE" (delete "AWS_DEFAULT_PROFILE" (VStr <$> environ st))).
  rewrite unset_profile_run. cbn.
  split; [apply fresh_lookup_None|]. split; [|split; [|split; [|split]]].
  - rewrite !lookup_alter_eq, lookup_insert_eq. reflexivity.
  - rewrite lookup_delete_ne by done. apply lookup_delete_eq.
  - apply lookup_delete_eq.
  - intros k H1 H2. rewrite !lookup_delete_ne by done. apply lookup_fmap.
  - intros l Hl. rewrite !lookup_alter_ne, lookup_insert_ne by done. reflexivity.
Qed.

(** ** [FixedJSONFileCache.__setitem__], continued *)

Lemma mapM_Ret_iff {A B} (f : A -> res B) (l : list A) :
  (exists ys, mapM f l = Ret ys) <-> Forall (fun x => exists y, f x = Ret y) l.
Proof.
  induction l as [|x l IH]; cbn.
  - split; [constructor|by eexists].
  - split.
    + intros [ys Hys]. destruct (f x) as [y|] eqn:Hx; [|discriminate].
      destruct (mapM f l) as [ys'|]; [|discriminate].
      constructor; [by eexists|]. apply IH. by eexists.
    + intros [[y Hy] [ys Hys]%IH]%Forall_cons_1. rewrite Hy, Hys. by eexists.
Qed.

Lemma forallb_Forall {A} (f : A -> bool) (l : list A) :
  forallb f l = true <-> Forall (fun x => f x = true) l.
Proof.
  induction l as [|x l IH]; cbn; [by split; [constructor|]|].
  rewrite andb_true_iff, IH. split.
  - intros [Hx Hl]. by constructor.
  - intros [Hx Hl]%Forall_cons_1. by split.
Qed.

Lemma Forall_pointwise_iff {A} (P Q : A -> Prop) (l : list A) :
  Forall (fun x => P x <-> Q x) l -> Forall P l <-> Forall Q l.
Proof.
  induction 1 as [|x l Hx _ IH]; [by split; constructor|].
  split; intros [H1 H2]%Forall_cons_1; constructor; tauto.
Qed.

Lemma array_Ret_iff {A} (r : res (list A)) (wrap : list A -> json) :
  (exists j, match r with Ret js => Ret (wrap js) | Raise e => Raise e end = Ret j)
  <-> exists js, r = Ret js.
Proof.
  destruct r as [js|e]; split; intros [x Hx]; try discriminate; by eexists.
Qed.

Lemma json_dumps_Ret_iff (v : pyval) :
  (exists j, json_dumps (with_default json_encoder) v = Ret j) <->
  serializable v = true.
Proof.
  induction v using pyval_ind; cbn; try (split; [done|by eexists]).
  - rewrite array_Ret_iff, mapM_Ret_iff, forallb_Forall.
    by apply Forall_pointwise_iff.
  - rewrite array_Ret_iff, mapM_Ret_iff, forallb_Forall.
    by apply Forall_pointwise_iff.
  - rewrite array_Ret_iff, mapM_Ret_iff, forallb_Forall.
    apply Forall_pointwise_iff.
    eapply Forall_impl; [exact H|]. intros [k x] Hx. cbn in Hx.
    rewrite andb_true_iff, <- Hx.
    destruct (json_key k); [|split; [by intros [y Hy]|by intros [Hk _]]].
    destruct (json_dumps _ x) as [j|e]; split.
    + intros _. split; [done|by eexists].
    + intros _. by eexists.
    + by intros [y Hy].
    + by intros [_ [y Hy]].
  - split; [by intros [j Hj]|discriminate].
Qed.

Lemma not_serializable_raises (v : pyval) :
  serializable v = false ->
  exists e, json_dumps (with_default json_encoder) v = Raise e.
Proof.
  intros Hs. destruct (json_dumps (with_default json_encoder) v) as [j|e] eqn:Hd;
    [|by eexists].
  assert (Ht : serializable v = true).
  { apply json_dumps_Ret_iff. by eexists. }
  congruence.
Qed.

(** X12. For a value that cannot be serialized, [__setitem__] asks nothing
    of the operating system: no directory is made and no file is opened,
    so the file system is as before.  The exception is [TypeError] when
    the value is a tuple of two or more items, because the message is
    formatted with [%], and [ValueError] for every other value. *)
Theorem setitem_not_serializable
    (FS : Type) (isdir : string -> FS -> bool)
    (makedirs : string -> FS -> res unit * FS)
    (write_file : string -> json -> FS -> res unit * FS)
    (working_dir cache_key : string) (value : pyval) (fs : FS) :
  serializable value = false ->
  setitem FS isdir makedirs write_file working_dir cache_key value fs =
    (Raise (match value with
            | PTuple (_ :: _ :: _) => TypeError
            | _ => ValueError
            end), fs).
Proof.
  intros Hs. destruct (not_serializable_raises value Hs) as [e Hd].
  unfold setitem. rewrite Hd.
  destruct (json_dumps_raises _ _ Hd) as [-> | ->];
    destruct value as [| | | | | | |[|x [|y l]]| |]; try reflexivity;
    discriminate Hs.
Qed.

Lemma setitem_not_serializable_witness :
  setitem MemFS mem_isdir mem_makedirs mem_write_file CACHE_DIR "dev--role"
    (PDict [(KStr "Roles", PObject "set()")]) empty_fs =
  (Raise ValueError, empty_fs).
Proof.
  exact (setitem_not_serializable MemFS mem_isdir mem_makedirs mem_write_file
           CACHE_DIR "dev--role" (PDict [(KStr "Roles", PObject "set()")])
           empty_fs eq_refl).
Defined.

(** X13. [__setitem__] cannot fail where awscli's [JSONFileCache] works:
    for every value [json.dumps(value)] serializes, the two classes do the
    same thing to the file system and give the same outcome. *)
Theorem setitem_agrees_with_JSONFileCache
    (FS : Type) (isdir : string -> FS -> bool)
    (makedirs : string -> FS -> res unit * FS)
    (write_file : string -> json -> FS -> res unit * FS)
    (working_dir cache_key : string) (value : pyval) (fs : FS) (j : json) :
  json_dumps no_default value = Ret j ->
  setitem FS isdir makedirs write_file working_dir cache_key value fs =
    JSONFileCache_setitem FS isdir makedirs write_file working_dir cache_key value fs.
Proof.
  intros Hj. unfold setitem, JSONFileCache_setitem.
  by rewrite Hj, (json_dumps_extends _ _ Hj).
Qed.

Lemma setitem_agrees_with_JSONFileCache_witness :
  setitem MemFS mem_isdir mem_makedirs mem_write_file CACHE_DIR "dev--role"
    (PDict [(KStr "AccessKeyId", PStr "AKIAEXAMPLE")]) empty_fs =
  JSONFileCache_setitem MemFS mem_isdir mem_makedirs mem_write_file CACHE_DIR
    "dev--role" (PDict [(KStr "AccessKeyId", PStr "AKIAEXAMPLE")]) empty_fs.
Proof.
  exact (setitem_agrees_with_JSONFileCache MemFS mem_isdir mem_makedirs
           mem_write_file CACHE_DIR "dev--role"
           (PDict [(KStr "AccessKeyId", PStr "AKIAEXAMPLE")]) empty_fs
           (JObject [(KStr "AccessKeyId", JStr "AKIAEXAMPLE")]) eq_refl).
Defined.

Lemma setitem_ValueError_iff_witness :
  ((setitem MemFS mem_isdir mem_makedirs mem_write_file CACHE_DIR "dev--role"
      (PList [PInt 1; PObject "set()"]) empty_fs).1 = Raise ValueError <->
   exists e,
     json_dumps (with_default json_encoder) (PList [PInt 1; PObject "set()"]) =
       Raise e) /\
  ((setitem MemFS mem_isdir mem_makedirs mem_write_file CACHE_DIR "dev--role"
      (PTuple []) empty_fs).1 = Raise ValueError <->
   exists e, json_dumps (with_default json_encoder) (PTuple []) = Raise e).
Proof.
  split;
    (apply (setitem_ValueError_iff MemFS mem_isdir mem_makedirs mem_write_file
              CACHE_DIR "dev--role" _ empty_fs);
     [intros p fs'; unfold mem_makedirs; destruct (bool_decide _); discriminate
     |intros p c fs'; unfold mem_write_file; destruct (mem_isdir p fs');
      discriminate
     |discriminate]).
Defined.

(** ** Argument errors *)

(** X15. When the argument parser exits ([SystemExit] after a usage error
    or [--help]), [main] ends with that exception and with its exit
    status; no session has been constructed and neither the configuration
    nor the credentials have been asked for. *)
Theorem main_parse_failure (host : Host) (env : gmap string string) (e : exn) :
  argparse (tail (sys_argv host)) = Raise e ->
  (main host (initial env)).1 = Raise e /\
  log (main host (initial env)).2 = [EvParseArgs] /\
  sessions (main host (initial env)).2 = ∅ /\
  (forall code, e = SystemExit code ->
     exit_status (main host (initial env)).1 = code).
Proof.
  intros Hargs.
  assert (Hd : derive host (initial env) =
                 (Raise e, mkState env ∅ ∅ [EvParseArgs])).
  { unfold derive, parse_args. step. by rewrite Hargs. }
  rewrite (main_aborted _ _ _ _ Hd). cbn.
  repeat split. by intros code ->.
Qed.

Lemma main_parse_failure_witness :
  (main (mkHost ["aws-profile"; "--bogus"]
           (example_session None) (fun _ _ => Ret 0%Z))
     (initial example_environ)).1 = Raise (SystemExit 2) /\
  log (main (mkHost ["aws-profile"; "--bogus"]
               (example_session None) (fun _ _ => Ret 0%Z))
         (initial example_environ)).2 = [EvParseArgs].
Proof.
  destruct (main_parse_failure
              (mkHost ["aws-profile"; "--bogus"]
                 (example_session None) (fun _ _ => Ret 0%Z))
              example_environ (SystemExit 2) eq_refl) as (Hr & Hl & _).
  split; [exact Hr|exact Hl].
Defined.
